(** * pipremove: the dependency-uninstallation resolver of [pipremove_v2.py]

    A shallow embedding of the resolver ([get_distribution],
    [does_pkg_exists], [PackageDependencyUninstalltionResolver] and the
    removal step of [PipRemoveCLI]) and the properties its specification
    states about it; then of the logging filter, [setup_logging],
    [distributions_as_dict], [choice], [_print_results] and [_main] with its
    console, with what the code shows of them.

    Modelling conventions.
    - A Python [dict] is a [gmap], a Python [set] a [gset].  Python iterates
      a dict in insertion order and a set in an unspecified order; the model
      iterates both in the order of [map_to_list] / [elements].  The general
      statements below are about membership and about whether an exception
      is raised, none about the order of iteration.
    - Module globals and the resolver object are mutable: the code runs in a
      state-and-exception monad, and the state reached when an exception is
      raised is kept, as Python keeps it.
    - Logging is left out: [_logger] only prints. *)

From stdpp Require Import base option list sets gmap strings.
From stdpp Require Import sorting.

#[global] Set Warnings "-clear-no-such-hyp".

Open Scope string_scope.

(** ** Exceptions *)

(** The exceptions the code can raise.  [PackageNotFound] is the class the
    module defines (with its [pkg] field); [PackageNotFoundError] is
    [importlib.metadata]'s; the others are builtins, with their argument. *)
Inductive exn : Type :=
  | ValueError (msg : string)
  | RuntimeError (msg : string)
  | KeyError (key : string)
  | PackageNotFoundError (name : string)
  | PackageNotFound (pkg : string).

(** ** A state and exception monad *)

Definition M (S A : Type) : Type := S → (exn + A) * S.

Definition ret {S A} (a : A) : M S A := λ s, (inr a, s).

Definition raise {S A} (e : exn) : M S A := λ s, (inl e, s).

Definition bind {S A B} (m : M S A) (k : A → M S B) : M S B :=
  λ s, match m s with
       | (inl e, s') => (inl e, s')
       | (inr a, s') => k a s'
       end.

Definition get {S} : M S S := λ s, (inr s, s).

Definition modify {S} (f : S → S) : M S unit := λ s, (inr tt, f s).

(** [try m handler]: Python's [try: m  except ...: handler], where [handler e]
    is [None] for an exception the [except] clause does not match. *)
Definition try {S A} (m : M S A) (handler : exn → option (M S A)) : M S A :=
  λ s, match m s with
       | (inl e, s') => match handler e with
                        | Some h => h s'
                        | None => (inl e, s')
                        end
       | r => r
       end.

Declare Scope pymonad_scope.
Delimit Scope pymonad_scope with py.
Notation "'do' x <- m ; k" := (bind m (λ x, k))
  (at level 10, x name, m at level 100, k at level 200) : pymonad_scope.
Notation "m ;; k" := (bind m (λ _, k))
  (at level 100, k at level 200, right associativity) : pymonad_scope.
Open Scope pymonad_scope.

(** [for x in l: body x] *)
Fixpoint for_each {S A} (l : list A) (body : A → M S unit) : M S unit :=
  match l with
  | [] => ret tt
  | x :: l' => body x ;; for_each l' body
  end.

(** [for x in l: acc = body x acc], for a loop that updates a local variable *)
Fixpoint fold_for {S A B} (l : list A) (body : A → B → M S B) (acc : B) : M S B :=
  match l with
  | [] => ret acc
  | x :: l' => do acc' <- body x acc; fold_for l' body acc'
  end.

(** ** The installed distributions *)

(** What the code reads from [importlib.metadata].
    - [distributions]: the dict [distributions_as_dict()] builds once,
      [{d.name: d for d in importlib.metadata.distributions()}], each
      distribution given by the names of its requirements, that is
      [tuple(r.name for r in get_requirements(d))] (parsing a requirement
      string is [packaging]'s work).
    - [distribution name]: the name of [importlib.metadata.distribution(name)],
      which finds a distribution under another spelling of its name, or
      [None] where it raises [PackageNotFoundError]. *)
Record Installed : Type := {
  distributions : gmap string (list string);
  distribution : string → option string
}.

Definition WHITELIST : gset string :=
  {[ "pip"; "setuptools"; "wheel"; "more-iterools"; "packaging"; "attrs"; "click" ]}.

(** ** [DependencyData] *)

Record DependencyData : Type := {
  target : string;
  whitelisted : gset (string * string);
  safe_to_removed : gmap string (gset string);
  package_depenencies_required_by : gmap string (gmap string (gset string));
  this_requires_by : gset string;
  never_installed : gset (string * string);
  analyzed_packages : gset string
}.

(** [DependencyData(target=target)] *)
Definition DependencyData_new (target : string) : DependencyData :=
  {| target := target;
     whitelisted := ∅;
     safe_to_removed := ∅;
     package_depenencies_required_by := ∅;
     this_requires_by := ∅;
     never_installed := ∅;
     analyzed_packages := ∅ |}.

(** Field updates. *)
Definition upd_whitelisted (f : gset (string * string) → gset (string * string))
    (d : DependencyData) : DependencyData :=
  {| target := target d;
     whitelisted := f (whitelisted d);
     safe_to_removed := safe_to_removed d;
     package_depenencies_required_by := package_depenencies_required_by d;
     this_requires_by := this_requires_by d;
     never_installed := never_installed d;
     analyzed_packages := analyzed_packages d |}.

Definition upd_safe_to_removed
    (f : gmap string (gset string) → gmap string (gset string))
    (d : DependencyData) : DependencyData :=
  {| target := target d;
     whitelisted := whitelisted d;
     safe_to_removed := f (safe_to_removed d);
     package_depenencies_required_by := package_depenencies_required_by d;
     this_requires_by := this_requires_by d;
     never_installed := never_installed d;
     analyzed_packages := analyzed_packages d |}.

Definition upd_required_by
    (f : gmap string (gmap string (gset string)) → gmap string (gmap string (gset string)))
    (d : DependencyData) : DependencyData :=
  {| target := target d;
     whitelisted := whitelisted d;
     safe_to_removed := safe_to_removed d;
     package_depenencies_required_by := f (package_depenencies_required_by d);
     this_requires_by := this_requires_by d;
     never_installed := never_installed d;
     analyzed_packages := analyzed_packages d |}.

Definition upd_this_requires_by (f : gset string → gset string)
    (d : DependencyData) : DependencyData :=
  {| target := target d;
     whitelisted := whitelisted d;
     safe_to_removed := safe_to_removed d;
     package_depenencies_required_by := package_depenencies_required_by d;
     this_requires_by := f (this_requires_by d);
     never_installed := never_installed d;
     analyzed_packages := analyzed_packages d |}.

Definition upd_never_installed (f : gset (string * string) → gset (string * string))
    (d : DependencyData) : DependencyData :=
  {| target := target d;
     whitelisted := whitelisted d;
     safe_to_removed := safe_to_removed d;
     package_depenencies_required_by := package_depenencies_required_by d;
     this_requires_by := this_requires_by d;
     never_installed := f (never_installed d);
     analyzed_packages := analyzed_packages d |}.

Definition upd_analyzed_packages (f : gset string → gset string)
    (d : DependencyData) : DependencyData :=
  {| target := target d;
     whitelisted := whitelisted d;
     safe_to_removed := safe_to_removed d;
     package_depenencies_required_by := package_depenencies_required_by d;
     this_requires_by := this_requires_by d;
     never_installed := never_installed d;
     analyzed_packages := f (analyzed_packages d) |}.

(** [d.setdefault(k, v)], for its effect on [d] *)
Definition setdefault {V} (k : string) (v : V) (d : gmap string V) : gmap string V :=
  match d !! k with
  | Some _ => d
  | None => <[k := v]> d
  end.

(** The state of a run: the resolver's [_depenency_data] and the module
    global [__alias_to_names]. *)
Record World : Type := {
  depenency_data : DependencyData;
  alias_to_names : gmap string string
}.

Definition map_data (f : DependencyData → DependencyData) (w : World) : World :=
  {| depenency_data := f (depenency_data w); alias_to_names := alias_to_names w |}.

Definition set_data (f : DependencyData → DependencyData) : M World unit :=
  modify (map_data f).

Definition get_data : M World DependencyData :=
  λ w, (inr (depenency_data w), w).

(** Runs code that only touches [__alias_to_names] inside a run. *)
Definition with_aliases {A} (m : M (gmap string string) A) : M World A :=
  λ w, let '(r, c) := m (alias_to_names w) in
       (r, {| depenency_data := depenency_data w; alias_to_names := c |}).

Section Resolver.

Context (env : Installed).

(** ** [get_distribution] and [does_pkg_exists] *)

(** [dists[name]] *)
Definition dists_getitem {S} (name : string) : M S string :=
  match distributions env !! name with
  | Some _ => ret name
  | None => raise (KeyError name)
  end.

(** [get_distribution(name)]; the result is the distribution's [name]. *)
Definition get_distribution (name : string) : M (gmap string string) string :=
  try (dists_getitem name) (λ e,
    match e with
    | KeyError _ => Some (
        do aliases <- get;
        match aliases !! name with
        | Some name' => dists_getitem name'
        | None =>
            match distribution env name with
            | Some d_name => modify <[name := d_name]> ;; ret d_name
            | None => raise (PackageNotFoundError name)
            end
        end)
    | _ => None
    end).

Definition does_pkg_exists (pkg : string) : M (gmap string string) bool :=
  try (get_distribution pkg ;; ret true) (λ e,
    match e with
    | PackageNotFoundError _ => Some (ret false)
    | _ => None
    end).

(** ** [PackageDependencyUninstalltionResolver] *)

(** [__init__(self, *, target)]: the new resolver's [_depenency_data]. *)
Definition __init__ (target : string) : M (gmap string string) DependencyData :=
  do found <- does_pkg_exists target;
  if negb found
  then raise (ValueError ("Package '" +:+ target +:+ "' not found"))
  else ret (DependencyData_new target).

(** [package_to_requirements]: the requirement names of every installed
    distribution. *)
Definition package_to_requirements : gmap string (list string) :=
  distributions env.

(** Lines 232-239: the requirements of [package], and [package] under the
    name it is installed as. *)
Definition pull_requirements (package : string) : M World (string * list string) :=
  match package_to_requirements !! package with
  | Some requirements => ret (package, requirements)
  | None =>
      do package <- with_aliases (get_distribution package);
      match package_to_requirements !! package with
      | Some requirements => ret (package, requirements)
      | None => raise (RuntimeError "we fail again")
      end
  end.

(** Lines 248-254, one [entry]. *)
Definition sort_entry (package entry : string) (vaild_requirements : gset string)
    : M World (gset string) :=
  do found <- with_aliases (does_pkg_exists entry);
  if negb found then
    set_data (upd_never_installed (λ s, {[ (package, entry) ]} ∪ s)) ;;
    ret vaild_requirements
  else if bool_decide (entry ∈ WHITELIST) then
    set_data (upd_whitelisted (λ s, {[ (package, entry) ]} ∪ s)) ;;
    ret vaild_requirements
  else ret ({[ entry ]} ∪ vaild_requirements).

(** Lines 260-266, one item of [package_to_requirements]. *)
Definition check_requires_this (package : string) (item : string * list string)
    : M World unit :=
  let '(package_to_check, requirements) := item in
  if bool_decide (package ∈ requirements
                  ∧ package_to_check ≠ package
                  ∧ (package_to_check ∉ WHITELIST))
  then set_data (upd_this_requires_by (λ s, {[ package_to_check ]} ∪ s))
  else ret tt.

(** Lines 277-281:
    [package_depenencies_required_by[package].setdefault(depenency, set()).add(package_to_check)] *)
Definition required_by_add (package depenency package_to_check : string)
    : M World unit :=
  do data <- get_data;
  match package_depenencies_required_by data !! package with
  | None => raise (KeyError package)
  | Some deps =>
      set_data (upd_required_by
        <[package := <[depenency := {[ package_to_check ]} ∪ default ∅ (deps !! depenency)]> deps]>)
  end.

(** Lines 269-281, one item of [package_to_requirements]. *)
Definition check_required_by (package : string) (vaild_requirements : gset string)
    (depenency : string) (item : string * list string) : M World unit :=
  let '(package_to_check, requirements) := item in
  do data <- get_data;
  if bool_decide (depenency ∈ requirements
                  ∧ package_to_check ≠ package
                  ∧ (package_to_check ∉ vaild_requirements)
                  ∧ (package_to_check ∉ WHITELIST)
                  ∧ package_to_check ≠ target data)
  then required_by_add package depenency package_to_check
  else ret tt.

(** Lines 283-287. *)
Definition set_safe_to_removed (package : string) (vaild_requirements : gset string)
    : M World unit :=
  do data <- get_data;
  match package_depenencies_required_by data !! package with
  | None => raise (KeyError package)
  | Some deps =>
      set_data (upd_safe_to_removed
        <[package := filter (λ d, d ∉ dom deps) vaild_requirements]>)
  end.

Definition _analyze_package_dependencies (package : string) : M World unit :=
  do data <- get_data;
  if bool_decide (package ∈ WHITELIST ∨ package ∈ analyzed_packages data)
  then ret tt
  else
    do pr <- pull_requirements package;
    let '(package, requirements) := pr in
    set_data (upd_safe_to_removed (setdefault package ∅)) ;;
    set_data (upd_required_by (setdefault package ∅)) ;;
    do vaild_requirements <- fold_for requirements (sort_entry package) ∅;
    (if bool_decide (package = target data)
     then for_each (map_to_list package_to_requirements) (check_requires_this package)
     else ret tt) ;;
    for_each (elements vaild_requirements) (λ depenency,
      for_each (map_to_list package_to_requirements)
        (check_required_by package vaild_requirements depenency)) ;;
    set_safe_to_removed package vaild_requirements ;;
    set_data (upd_analyzed_packages (λ s, {[ package ]} ∪ s)).

(** Lines 307-314, one item of [safe_to_removed]. *)
Definition drop_if_removed (i : string) (item : string * gset string) : M World unit :=
  let '(mdep, mdep_deps) := item in
  if bool_decide (i ∈ mdep_deps) then
    do data <- get_data;
    if bool_decide (i ∈ this_requires_by data)
    then set_data (upd_this_requires_by (λ s, s ∖ {[ i ]}))
    else raise (KeyError i)
  else ret tt.

(** Lines 307-314. *)
Definition drop_removed : M World unit :=
  do data <- get_data;
  for_each (elements (this_requires_by data)) (λ i,
    do data <- get_data;
    for_each (map_to_list (safe_to_removed data)) (drop_if_removed i)).

Definition analyze_recursively : M World bool :=
  do data <- get_data;
  let target := target data in
  _analyze_package_dependencies target ;;
  do data <- get_data;
  let to_removed := default ∅ (safe_to_removed data !! target) in
  if bool_decide (to_removed = ∅) then ret false
  else
    for_each (elements to_removed) _analyze_package_dependencies ;;
    drop_removed ;;
    ret true.

(** ** [PipRemoveCLI] *)

(** [_remove_packages]: the arguments [execpip] is called with. *)
Definition _remove_packages (quiet : bool) (data : DependencyData) : list string :=
  let uninstalled :=
    foldl (λ uninstalled deps, uninstalled ∪ deps) ∅
          ((map_to_list (safe_to_removed data)).*2) in
  let uninstalled := {[ target data ]} ∪ uninstalled in
  let base := ["uninstall"; "--yes"] in
  let base := if quiet then (base ++ ["--quiet"])%list else base in
  (base ++ elements uninstalled)%list.

(** [_main], for [self._quiet = quiet], [self._yes = yes] and a user who
    gives [answer] to [choice]: the arguments of the call of [execpip], if it
    is called.  What [_print_results] prints is left out. *)
Definition _main (quiet yes answer : bool) : M World (option (list string)) :=
  do rv <- analyze_recursively;
  if negb rv then ret None
  else
    let yes := if quiet || yes then true else answer in
    if yes
    then do data <- get_data; ret (Some (_remove_packages quiet data))
    else ret None.

End Resolver.


(** ** Notions the statements use *)

Section Notions.

Context (env : Installed).

(** [name] is installed: [get_distribution(name)] finds it, in the dict or
    through [importlib.metadata.distribution]. *)
Definition installed (name : string) : Prop :=
  is_Some (distributions env !! name) ∨ is_Some (distribution env name).

(** The name [name] is installed as. *)
Definition installed_as (name : string) : option string :=
  match distributions env !! name with
  | Some _ => Some name
  | None => distribution env name
  end.

(** [__alias_to_names] only remembers what [importlib.metadata.distribution]
    answered. *)
Definition aliases_ok (aliases : gmap string string) : Prop :=
  ∀ name d_name, aliases !! name = Some d_name → distribution env name = Some d_name.

(** [entry], a requirement of a package, goes to [vaild_requirements]. *)
Definition vaild (requirements : list string) (entry : string) : Prop :=
  entry ∈ requirements ∧ installed entry ∧ entry ∉ WHITELIST.

(** [package_to_check] passes the test of lines 270-276 for [depenency]. *)
Definition requires_too (tgt package : string) (requirements : list string)
    (depenency package_to_check : string) : Prop :=
  ∃ reqs, distributions env !! package_to_check = Some reqs
    ∧ depenency ∈ reqs
    ∧ package_to_check ≠ package
    ∧ ¬ vaild requirements package_to_check
    ∧ (package_to_check ∉ WHITELIST)
    ∧ package_to_check ≠ tgt.

(** [package_to_check] passes the test of lines 261-265 for [package]. *)
Definition requires_this (package package_to_check : string) : Prop :=
  ∃ reqs, distributions env !! package_to_check = Some reqs
    ∧ package ∈ reqs
    ∧ package_to_check ≠ package
    ∧ package_to_check ∉ WHITELIST.

(** [safe_to_removed.get(package, set())] *)
Definition safe_of (data : DependencyData) (package : string) : gset string :=
  default ∅ (safe_to_removed data !! package).

(** The dependencies of [package] that have an entry in
    [package_depenencies_required_by[package]]. *)
Definition required_keys (data : DependencyData) (package : string) : gset string :=
  dom (default (∅ : gmap string (gset string))
         (package_depenencies_required_by data !! package)).

(** [package_depenencies_required_by[package][depenency]], empty where there
    is no entry. *)
Definition required_by_of (data : DependencyData) (package depenency : string)
    : gset string :=
  default ∅ (default (∅ : gmap string (gset string))
               (package_depenencies_required_by data !! package) !! depenency).

Definition exactly_one (a b c d : Prop) : Prop :=
  (a ∧ ¬ b ∧ ¬ c ∧ ¬ d) ∨ (¬ a ∧ b ∧ ¬ c ∧ ¬ d)
  ∨ (¬ a ∧ ¬ b ∧ c ∧ ¬ d) ∨ (¬ a ∧ ¬ b ∧ ¬ c ∧ d).

(** The entries of [data] for [p] are what lines 244-287 compute for it. *)
Definition sorted_out (data : DependencyData) (p : string) : Prop :=
  ∃ (reqs : list string) (S : gset string) (deps : gmap string (gset string)),
    distributions env !! p = Some reqs
    ∧ safe_to_removed data !! p = Some S
    ∧ package_depenencies_required_by data !! p = Some deps
    ∧ (∀ d, (p, d) ∈ never_installed data ↔ d ∈ reqs ∧ ¬ installed d)
    ∧ (∀ d, (p, d) ∈ whitelisted data ↔ d ∈ reqs ∧ installed d ∧ d ∈ WHITELIST)
    ∧ (∀ d q, q ∈ default ∅ (deps !! d) ↔
         vaild reqs d ∧ requires_too (target data) p reqs d q)
    ∧ (∀ d, is_Some (deps !! d) ↔
         vaild reqs d ∧ ∃ q, requires_too (target data) p reqs d q)
    ∧ (∀ d, d ∈ S ↔
         vaild reqs d ∧ ¬ ∃ q, requires_too (target data) p reqs d q).

(** The invariant of a [DependencyData]: the analyzed packages are sorted
    out, and nothing is recorded for any other. *)
Definition data_ok (data : DependencyData) : Prop :=
  (∀ p, p ∈ analyzed_packages data → sorted_out data p)
  ∧ (∀ p, p ∉ analyzed_packages data →
       safe_to_removed data !! p = None
       ∧ package_depenencies_required_by data !! p = None
       ∧ ∀ d, ((p, d) ∉ never_installed data) ∧ ((p, d) ∉ whitelisted data)).

(** The states of a resolver: a new one, then any number of calls of
    [_analyze_package_dependencies] that return. *)
Inductive reachable : World → Prop :=
  | reachable_new tgt aliases :
      aliases_ok aliases →
      reachable {| depenency_data := DependencyData_new tgt;
                   alias_to_names := aliases |}
  | reachable_analyze package w w' :
      reachable w →
      _analyze_package_dependencies env package w = (inr tt, w') →
      reachable w'.

End Notions.

(** The test of lines 270-276. *)
Definition passes (tgt package : string) (V : gset string)
    (depenency package_to_check : string) (requirements : list string) : Prop :=
  depenency ∈ requirements
  ∧ package_to_check ≠ package
  ∧ (package_to_check ∉ V)
  ∧ (package_to_check ∉ WHITELIST)
  ∧ package_to_check ≠ tgt.

#[global] Instance installed_dec env name : Decision (installed env name).
Proof. unfold installed. apply _. Defined.

(** Every name [importlib.metadata.distribution] answers is a key of the
    dict: both come from the same installed distributions. *)
Definition index_consistent (env : Installed) : Prop :=
  ∀ name d_name, distribution env name = Some d_name →
    is_Some (distributions env !! d_name).

(** A new resolver for [tgt], as [__init__] leaves it. *)
Definition new_resolver (tgt : string) (aliases : gmap string string) : World :=
  {| depenency_data := DependencyData_new tgt; alias_to_names := aliases |}.

(** ** Installed sets used as examples *)

Definition no_alias : string → option string := λ _, None.

(** [A] requires [B], [B] requires [C]. *)
Definition chain_env : Installed :=
  {| distributions := list_to_map [("A", ["B"]); ("B", ["C"]); ("C", [])];
     distribution := no_alias |}.

(** [A] and [D] both require [B]. *)
Definition shared_env : Installed :=
  {| distributions := list_to_map [("A", ["B"]); ("D", ["B"]); ("B", [])];
     distribution := no_alias |}.

(** One requirement of [A] for each way a requirement is sorted. *)
Definition mixed_env : Installed :=
  {| distributions :=
       list_to_map [("A", ["pip"; "ghost"; "B"; "C"]); ("B", []); ("C", []);
                    ("D", ["C"]); ("pip", [])];
     distribution := no_alias |}.

(** [A] requires [B] and [C], and [B] requires [C] too. *)
Definition diamond_env : Installed :=
  {| distributions := list_to_map [("A", ["B"; "C"]); ("B", ["C"]); ("C", [])];
     distribution := no_alias |}.

(** As [diamond_env], with [C] requiring [A]: a cycle. *)
Definition cycle_env : Installed :=
  {| distributions := list_to_map [("A", ["B"; "C"]); ("B", ["C"]); ("C", ["A"])];
     distribution := no_alias |}.

(** [A] and [B] require each other. *)
Definition mutual_env : Installed :=
  {| distributions := list_to_map [("A", ["B"]); ("B", ["A"])];
     distribution := no_alias |}.

(** [Foo] requires [bar], and [importlib.metadata] finds [Foo] under the
    spelling [foo] too. *)
Definition alias_env : Installed :=
  {| distributions := list_to_map [("Foo", ["bar"]); ("bar", [])];
     distribution := λ name, if String.eqb name "foo" then Some "Foo" else None |}.

(** [importlib.metadata] finds a distribution [B] under the spelling [b],
    but the dict has no key [B] (it was built before [B] was installed). *)
Definition stale_env : Installed :=
  {| distributions := list_to_map [("A", ["b"])];
     distribution := λ name, if String.eqb name "b" then Some "B" else None |}.

(** The state after [_analyze_package_dependencies(tgt)] on a new resolver
    for [tgt]. *)
Definition after_analyze (env : Installed) (tgt : string) : World :=
  (_analyze_package_dependencies env tgt (new_resolver tgt ∅)).2.

(** The state when lines 296-305 of [analyze_recursively] are done. *)
Definition before_drop (env : Installed) (tgt : string) : World :=
  let w1 := after_analyze env tgt in
  (for_each (elements (safe_of (depenency_data w1) tgt))
     (_analyze_package_dependencies env) w1).2.

(** A package that requires [more-itertools]. *)
Definition itertools_env : Installed :=
  {| distributions :=
       list_to_map [("foo", ["more-itertools"]); ("more-itertools", []);
                    ("pip", []); ("click", [])];
     distribution := no_alias |}.

(** ** Logging: [_PipRemoveFilter], [_PipRemoveLogger], [setup_logging] *)

(** [logging.DEBUG], [logging.INFO], [logging.WARNING] *)
Definition DEBUG : Z := 10.
Definition INFO : Z := 20.
Definition WARNING : Z := 30.

(** [_PipRemoveFilter(verbose_level).filter(record)], for a record of level
    [levelno]. *)
Definition _PipRemoveFilter_filter (verbose_level levelno : Z) : bool :=
  if bool_decide (levelno = DEBUG ∨ levelno = WARNING)
  then bool_decide (2 ≤ verbose_level)%Z
  else if bool_decide (levelno = INFO)
  then bool_decide (1 ≤ verbose_level)%Z
  else true.

(** Where a handler writes: [StreamHandler()] writes to [sys.stderr],
    [StreamHandler(f)] to the file [f] (a file is given by its name). *)
Inductive Stream : Type :=
  | Stderr
  | LogFile (f : string).

(** A [_PipRemoveLogger]: the level of its filter, its handlers and its
    [disabled] flag. *)
Record Logger : Type := {
  logger_verbose_level : Z;
  logger_handlers : list Stream;
  logger_disabled : bool
}.

(** The module globals [_logger] and [_log_fileobj], and the files
    registered with [atexit] to be closed. *)
Record LoggingGlobals : Type := {
  _logger : option Logger;
  _log_fileobj : option string;
  atexit_close : list string
}.

(** [_PipRemoveLogger(quiet, verbose_level)], which reads [_log_fileobj]. *)
Definition _PipRemoveLogger_new (quiet : bool) (verbose_level : Z)
    (g : LoggingGlobals) : Logger :=
  {| logger_verbose_level := verbose_level;
     logger_handlers :=
       ([Stderr] ++ match _log_fileobj g with
                    | Some f => [LogFile f]
                    | None => []
                    end)%list;
     logger_disabled := quiet |}.

(** [setup_logging(quiet, verbosity, logfile)] *)
Definition setup_logging (quiet : bool) (verbosity : Z) (logfile : option string)
    (g : LoggingGlobals) : LoggingGlobals :=
  let logger := _PipRemoveLogger_new quiet verbosity g in
  match logfile with
  | Some f =>
      {| _logger := Some logger;
         _log_fileobj := Some f;
         atexit_close := (atexit_close g ++ [f])%list |}
  | None =>
      {| _logger := Some logger;
         _log_fileobj := _log_fileobj g;
         atexit_close := atexit_close g |}
  end.

(** ** [distributions_as_dict] *)

(** An [importlib.metadata.Distribution]: its [name] and its [requires]. *)
Record Distribution : Type := {
  dist_name : string;
  dist_requires : option (list string)
}.

(** [{d.name: d for d in dists}]: a later distribution replaces an earlier
    one of the same name. *)
Definition dict_by_name (dists : list Distribution) : gmap string Distribution :=
  foldl (λ acc d, <[dist_name d := d]> acc) ∅ dists.

(** [distributions_as_dict()]; the state is the global [__dists], and
    [found] is what [importlib.metadata.distributions()] yields if it is
    called. *)
Definition distributions_as_dict (found : list Distribution)
    : M (option (gmap string Distribution)) (gmap string Distribution) :=
  do cached <- get;
  match cached with
  | None =>
      let dists := dict_by_name found in
      modify (λ _, Some dists) ;; ret dists
  | Some dists => ret dists
  end.

(** ** [choice]

    A line of input is a string of characters of code below 256. *)

(** [c.isspace()] *)
Definition is_space (c : Ascii.ascii) : bool :=
  let n := Ascii.nat_of_ascii c in
  ((9 <=? n)%nat && (n <=? 13)%nat) || ((28 <=? n)%nat && (n <=? 32)%nat)
  || (n =? 133)%nat || (n =? 160)%nat.

Fixpoint lstrip (s : string) : string :=
  match s with
  | EmptyString => EmptyString
  | String c s' => if is_space c then lstrip s' else s
  end.

Fixpoint rstrip (s : string) : string :=
  match s with
  | EmptyString => EmptyString
  | String c s' =>
      match rstrip s' with
      | EmptyString => if is_space c then EmptyString else String c EmptyString
      | r => String c r
      end
  end.

(** [s.strip()] *)
Definition strip (s : string) : string := rstrip (lstrip s).

(** The lower case of a letter of [A-Z]; [re.IGNORECASE] makes [y], [e],
    [s], [n] and [o] match these letters in either case, and among the
    characters of code below 256 no other. *)
Definition lower_char (c : Ascii.ascii) : Ascii.ascii :=
  let n := Ascii.nat_of_ascii c in
  if (65 <=? n)%nat && (n <=? 90)%nat then Ascii.ascii_of_nat (n + 32) else c.

Fixpoint lower (s : string) : string :=
  match s with
  | EmptyString => EmptyString
  | String c s' => String (lower_char c) (lower s')
  end.

Definition newline : string := String (Ascii.ascii_of_nat 10) EmptyString.

(** [re.compile("^(a|b)$", re.DOTALL | re.IGNORECASE).match(answer)]: the
    whole of [answer] is [a] or [b], in any case; [$] also matches before a
    newline that ends [answer]. *)
Definition re_match_either (a b answer : string) : bool :=
  bool_decide (lower answer = a ∨ lower answer = b
               ∨ lower answer = a +:+ newline ∨ lower answer = b +:+ newline).

Definition CHOICE_YES_REGEX : string → bool := re_match_either "y" "yes".
Definition CHOICE_NO_REGEX : string → bool := re_match_either "n" "no".

(** The console: the lines the user types, and what was written to
    [sys.stdout], one string for each [print] and each prompt. *)
Record Console : Type := {
  stdin : list string;
  stdout : list string
}.

(** The loop of [choice]: [None] is the [EOFError] of [input] when the input
    has ended. *)
Fixpoint choice_loop (message : string) (lines out : list string)
    : option bool * Console :=
  match lines with
  | [] => (None, {| stdin := []; stdout := (out ++ [message])%list |})
  | line :: rest =>
      let out := (out ++ [message])%list in
      let answer := strip line in
      if bool_decide (answer = EmptyString) then choice_loop message rest out
      else if CHOICE_YES_REGEX answer
      then (Some true, {| stdin := rest; stdout := out |})
      else if CHOICE_NO_REGEX answer
      then (Some false, {| stdin := rest; stdout := out |})
      else choice_loop message rest
             (out ++ ["error: not a choice, must be y, n, yes or no"])%list
  end.

(** [choice(message)] *)
Definition choice (message : string) (console : Console) : option bool * Console :=
  choice_loop (message +:+ " (y/n/yes/no): ") (stdin console) (stdout console).

(** What one line of input is to [choice]: the answer [True] or [False], or
    no answer. *)
Definition answer_of (line : string) : option bool :=
  let answer := strip line in
  if bool_decide (answer = EmptyString) then None
  else if CHOICE_YES_REGEX answer then Some true
  else if CHOICE_NO_REGEX answer then Some false
  else None.

(** What [choice] writes for a line that is no answer: the prompt, and the
    error message unless the line is blank. *)
Definition written_for (message line : string) : list string :=
  if bool_decide (strip line = EmptyString) then [message]
  else [message; "error: not a choice, must be y, n, yes or no"].

(** ** [_print_results] *)

(** [" " * n] *)
Fixpoint spaces (n : nat) : string :=
  match n with
  | O => EmptyString
  | S n' => String (Ascii.ascii_of_nat 32) (spaces n')
  end.

Definition format_indent (level : nat) : string := spaces (level - 2) +:+ "- ".

(** [sep.join(l)] *)
Fixpoint join (sep : string) (l : list string) : string :=
  match l with
  | [] => EmptyString
  | [x] => x
  | x :: l' => x +:+ sep +:+ join sep l'
  end.

(** The order of [str]: by the codes of the characters, a prefix first. *)
Definition string_le (a b : string) : Prop := String.leb a b = true.

#[global] Instance string_le_dec a b : Decision (string_le a b).
Proof. unfold string_le. apply _. Defined.

(** [sorted(l)], for strings *)
Definition sorted (l : list string) : list string := merge_sort string_le l.

(** [any(deps for deps in d.values())]: the flag [doit] of lines 344-348 and
    366-370. *)
Definition any_nonempty {V} `{Empty V, EqDecision V} (d : gmap string V) : bool :=
  existsb (λ item : string * V, bool_decide (item.2 ≠ ∅)) (map_to_list d).

(** The lines [_print_results] prints, one string for each [print];
    [logger] tells whether [_logger] is set. *)
Definition _print_results (logger : bool) (data : DependencyData) : list string :=
  let this_requires_by := this_requires_by data in
  let part1 :=
    if bool_decide (this_requires_by ≠ ∅) && logger then
      "The following packages used this as a dependency:"
        :: ((λ i, format_indent 4 +:+ i) <$> sorted (elements this_requires_by))
    else [] in
  let never_installed := never_installed data in
  let part2 :=
    if bool_decide (never_installed ≠ ∅) && logger then
      "The following dependencies of this modules/packages is not installed:"
        :: ((λ '(mod_, dep), format_indent 4 +:+ dep +:+ " --> a dependency of " +:+ mod_)
              <$> elements never_installed)
    else [] in
  let package_dep_requird_by := package_depenencies_required_by data in
  let part3 :=
    if bool_decide (package_dep_requird_by ≠ ∅) && logger then
      if any_nonempty package_dep_requird_by then
        "The following dependencies of this module/package is used on other modules/packages:"
          :: (mod_deps ← map_to_list package_dep_requird_by;
              (λ '(mdep, used),
                 format_indent 4 +:+ mdep +:+ " (a dependency of " +:+ mod_deps.1
                 +:+ ") --> used by " +:+ join ", " (elements used))
                <$> map_to_list mod_deps.2)
      else []
    else [] in
  let wl := whitelisted data in
  let part4 :=
    if bool_decide (wl ≠ ∅) && logger then
      "The following dependencies of this module/package is whitelisted:"
        :: ((λ '(mod_, dep), format_indent 4 +:+ dep +:+ " (a dependency of " +:+ mod_ +:+ ")")
              <$> elements wl)
    else [] in
  let removed := safe_to_removed data in
  let part5 :=
    if bool_decide (removed ≠ ∅) && logger then
      if any_nonempty removed then
        "The following dependencies of this module/package will be REMOVED:"
          :: (mod_deps ← map_to_list removed;
              (λ dep, format_indent 4 +:+ dep +:+ " (a dependency of " +:+ mod_deps.1 +:+ ")")
                <$> elements mod_deps.2)
      else []
    else [] in
  (part1 ++ part2 ++ part3 ++ part4 ++ part5)%list.

(** ** [_main], with what it prints and reads *)

(** What stops [_main]: an exception of the resolver, or the [EOFError] of
    [input]. *)
Inductive main_exn : Type :=
  | Raised (e : exn)
  | EOFError.

Section MainIO.

Context (env : Installed).

(** [_main(resolver)] with the console: the arguments of the call of
    [execpip], if it is called. *)
Definition _main_io (logger quiet yes : bool) (w : World) (console : Console)
    : (main_exn + option (list string)) * World * Console :=
  match analyze_recursively env w with
  | (inl e, w') => (inl (Raised e), w', console)
  | (inr false, w') => (inr None, w', console)
  | (inr true, w') =>
      let console :=
        {| stdin := stdin console;
           stdout := (stdout console
                      ++ _print_results logger (depenency_data w'))%list |} in
      let '(answer, console) :=
        if quiet || yes then (Some true, console)
        else choice "Continue to uninstall?" console in
      match answer with
      | None => (inl EOFError, w', console)
      | Some true =>
          (inr (Some (_remove_packages quiet (depenency_data w'))), w', console)
      | Some false => (inr None, w', console)
      end
  end.

End MainIO.

(** ** The monad *)

(** Unfolds the field updates of a [DependencyData] and reads its fields. *)
Ltac simpl_data :=
  unfold map_data, upd_whitelisted, upd_safe_to_removed, upd_required_by,
    upd_this_requires_by, upd_never_installed, upd_analyzed_packages in *;
  cbn [depenency_data alias_to_names
       target whitelisted safe_to_removed package_depenencies_required_by
       this_requires_by never_installed analyzed_packages] in *.


Section MonadFacts.

Context {S : Type}.

Lemma bind_inr {A B} (m : M S A) (k : A → M S B) s b s' :
  bind m k s = (inr b, s') ↔ ∃ a s1, m s = (inr a, s1) ∧ k a s1 = (inr b, s').
Proof.
  unfold bind. destruct (m s) as [[e|a] s1]; split.
  - intros [=].
  - intros (a & s2 & [=] & _).
  - intros H. by exists a, s1.
  - intros (a' & s2 & [= <- <-] & H). done.
Qed.

Lemma bind_eq {A B} (m : M S A) (k : A → M S B) s a s1 :
  m s = (inr a, s1) → bind m k s = k a s1.
Proof. unfold bind. by intros ->. Qed.

Lemma bind_raise {A B} (m : M S A) (k : A → M S B) s e s1 :
  m s = (inl e, s1) → bind m k s = (inl e, s1).
Proof. unfold bind. by intros ->. Qed.

End MonadFacts.

(** ** [get_distribution] and [does_pkg_exists] *)

Section IndexFacts.

Context (env : Installed).

Lemma aliases_ok_empty : aliases_ok env ∅.
Proof. intros n m. by rewrite lookup_empty. Qed.

Lemma aliases_ok_insert c name d_name :
  aliases_ok env c → distribution env name = Some d_name →
  aliases_ok env (<[name := d_name]> c).
Proof.
  intros Hc Hd n m. rewrite lookup_insert. case_decide; [|by apply Hc].
  intros [= <-]. by subst.
Qed.

(** What [get_distribution] does, case by case. *)
Lemma get_distribution_cases name c :
  get_distribution env name c =
    match distributions env !! name with
    | Some _ => (inr name, c)
    | None =>
        match c !! name with
        | Some name' =>
            match distributions env !! name' with
            | Some _ => (inr name', c)
            | None => (inl (KeyError name'), c)
            end
        | None =>
            match distribution env name with
            | Some d_name => (inr d_name, <[name := d_name]> c)
            | None => (inl (PackageNotFoundError name), c)
            end
        end
    end.
Proof.
  unfold get_distribution, try, dists_getitem.
  destruct (distributions env !! name); [done|]. simpl.
  unfold bind, get. destruct (c !! name) as [name'|].
  - by destruct (distributions env !! name').
  - by destruct (distribution env name).
Qed.

Lemma get_distribution_ok name c r c' :
  aliases_ok env c → get_distribution env name c = (r, c') →
  aliases_ok env c' ∧
  match r with
  | inr d_name => installed_as env name = Some d_name
  | inl e => (e = PackageNotFoundError name ∧ ¬ installed env name ∧ c' = c)
             ∨ (∃ key, e = KeyError key ∧ installed env name
                       ∧ distribution env name = Some key
                       ∧ distributions env !! key = None)
  end.
Proof.
  intros Hc. rewrite get_distribution_cases. unfold installed_as, installed.
  destruct (distributions env !! name) as [reqs|] eqn:Hn.
  { intros [= <- <-]. done. }
  destruct (c !! name) as [name'|] eqn:Ha.
  - pose proof (Hc _ _ Ha) as Hd.
    destruct (distributions env !! name') eqn:Hn'; intros [= <- <-]; split; try done.
    right. exists name'. rewrite Hd. naive_solver.
  - destruct (distribution env name) as [d_name|] eqn:Hd; intros [= <- <-].
    + split; [by apply aliases_ok_insert|done].
    + split; [done|]. left. split_and!; [done| |done].
      intros [[? ?]|[? ?]]; done.
Qed.

Lemma does_pkg_exists_cases pkg c :
  does_pkg_exists env pkg c =
    match get_distribution env pkg c with
    | (inr _, c') => (inr true, c')
    | (inl (PackageNotFoundError _), c') => (inr false, c')
    | (inl e, c') => (inl e, c')
    end.
Proof.
  unfold does_pkg_exists, try, bind.
  destruct (get_distribution env pkg c) as [[e|d] c']; [|done].
  by destruct e.
Qed.

Lemma does_pkg_exists_ok pkg c found c' :
  aliases_ok env c → does_pkg_exists env pkg c = (inr found, c') →
  aliases_ok env c' ∧ (found = true ↔ installed env pkg).
Proof.
  intros Hc. rewrite does_pkg_exists_cases.
  destruct (get_distribution env pkg c) as [[e|d] c1] eqn:Hg;
    destruct (get_distribution_ok _ _ _ _ Hc Hg) as [Hc1 Hr].
  - destruct Hr as [(-> & Hni & ->)|(key & -> & _)]; [|done].
    intros [= <- <-]. split; [done|]. split; [done|]. intros; done.
  - intros [= <- <-]. split; [done|]. split; [|done]. intros _.
    unfold installed_as in Hr. unfold installed.
    destruct (distributions env !! pkg); [left; eauto|right; eauto].
Qed.

End IndexFacts.

(** ** The loops of [_analyze_package_dependencies] *)

Section LoopFacts.

Context (env : Installed).

Implicit Types (w : World) (data : DependencyData).

(** The loop of lines 248-254. *)
Lemma sort_entries_ok package requirements : ∀ V0 w V w',
  aliases_ok env (alias_to_names w) →
  fold_for requirements (sort_entry env package) V0 w = (inr V, w') →
  aliases_ok env (alias_to_names w')
  ∧ (∀ d, d ∈ V ↔ d ∈ V0 ∨ vaild env requirements d)
  ∧ ∃ NI WL,
      depenency_data w' =
        upd_never_installed (λ _, NI) (upd_whitelisted (λ _, WL) (depenency_data w))
      ∧ (∀ x, x ∈ NI ↔ x ∈ never_installed (depenency_data w)
                ∨ ∃ d, x = (package, d) ∧ d ∈ requirements ∧ ¬ installed env d)
      ∧ (∀ x, x ∈ WL ↔ x ∈ whitelisted (depenency_data w)
                ∨ ∃ d, x = (package, d) ∧ d ∈ requirements
                       ∧ installed env d ∧ d ∈ WHITELIST).
Proof.
  unfold vaild.
  induction requirements as [|entry requirements IH]; intros V0 w V w' Hc; simpl.
  { intros [= <- <-]. split; [done|]. split; [set_solver|].
    exists (never_installed (depenency_data w)), (whitelisted (depenency_data w)).
    split; [by destruct w as [[] ?]|]. set_solver. }
  intros (V1 & w1 & Hstep & Hrest)%bind_inr.
  assert (aliases_ok env (alias_to_names w1)
    ∧ ((¬ installed env entry ∧ V1 = V0 ∧ depenency_data w1 =
          upd_never_installed (λ s, {[ (package, entry) ]} ∪ s) (depenency_data w))
       ∨ (installed env entry ∧ entry ∈ WHITELIST ∧ V1 = V0 ∧ depenency_data w1 =
          upd_whitelisted (λ s, {[ (package, entry) ]} ∪ s) (depenency_data w))
       ∨ (installed env entry ∧ (entry ∉ WHITELIST) ∧ V1 = {[ entry ]} ∪ V0
          ∧ depenency_data w1 = depenency_data w))) as [Hc1 Hcase].
  { unfold sort_entry in Hstep.
    apply bind_inr in Hstep as (found & w0 & Hfound & Hstep).
    unfold with_aliases in Hfound.
    destruct (does_pkg_exists env entry (alias_to_names w)) as [r c] eqn:Hex.
    injection Hfound as -> <-.
    apply does_pkg_exists_ok in Hex as [Hc0 Hfound]; [|done].
    destruct found; simpl in Hstep.
    - assert (installed env entry) as Hin by by apply Hfound.
      case_bool_decide as Hwl.
      + injection Hstep as <- <-. split; [done|]. right; left. done.
      + injection Hstep as <- <-. split; [done|]. right; right. done.
    - assert (¬ installed env entry) as Hin.
      { intros Hin. apply Hfound in Hin. done. }
      injection Hstep as <- <-. split; [done|]. left. done. }
  destruct (IH _ _ _ _ Hc1 Hrest) as (Hc' & HV & NI & WL & Hdata & HNI & HWL).
  clear IH Hrest Hstep.
  split; [done|].
  split.
  { intros d. rewrite HV. setoid_rewrite elem_of_cons. clear HV HNI HWL Hdata.
    destruct Hcase as [(? & -> & _)|[(? & ? & -> & _)|(? & ? & -> & _)]];
      rewrite ?elem_of_union, ?elem_of_singleton; naive_solver. }
  exists NI, WL. split.
  { rewrite Hdata.
    destruct Hcase as [(_ & _ & ->)|[(_ & _ & _ & ->)|(_ & _ & _ & ->)]]; done. }
  clear HV Hdata.
  split; intros x; [rewrite HNI | rewrite HWL]; clear HNI HWL;
    setoid_rewrite elem_of_cons;
    destruct Hcase as [(? & _ & ->)|[(? & ? & _ & ->)|(? & ? & _ & ->)]];
    simpl; rewrite ?elem_of_union, ?elem_of_singleton; naive_solver.
Qed.

Lemma check_requires_this_eq package q reqs w :
  check_requires_this package (q, reqs) w =
    (inr tt,
     if bool_decide (package ∈ reqs ∧ q ≠ package ∧ q ∉ WHITELIST)
     then map_data (upd_this_requires_by (λ s, {[ q ]} ∪ s)) w else w).
Proof. unfold check_requires_this. by case_bool_decide. Qed.

(** The loop of lines 260-266. *)
Lemma requires_this_loop_ok package items : ∀ w,
  ∃ T, for_each items (check_requires_this package) w
         = (inr tt, map_data (upd_this_requires_by (λ _, T)) w)
     ∧ ∀ q, q ∈ T ↔ q ∈ this_requires_by (depenency_data w)
                 ∨ ∃ reqs, (q, reqs) ∈ items ∧ package ∈ reqs
                           ∧ q ≠ package ∧ q ∉ WHITELIST.
Proof.
  induction items as [|[q0 reqs0] items IH]; intros w; cbn [for_each].
  { exists (this_requires_by (depenency_data w)). split.
    - by destruct w as [[] ?].
    - intros q. setoid_rewrite elem_of_nil. naive_solver. }
  rewrite (bind_eq _ _ _ _ _ (check_requires_this_eq _ _ _ _)).
  case_bool_decide as Hcond.
  - destruct (IH (map_data (upd_this_requires_by (λ s, {[ q0 ]} ∪ s)) w))
      as (T & -> & HT).
    exists T. split; [done|]. intros q. rewrite HT. simpl. clear HT IH.
    setoid_rewrite elem_of_cons. rewrite elem_of_union, elem_of_singleton.
    naive_solver.
  - destruct (IH w) as (T & -> & HT).
    exists T. split; [done|]. intros q. rewrite HT. clear HT IH.
    setoid_rewrite elem_of_cons. naive_solver.
Qed.

Lemma check_required_by_eq package V depenency q reqs w deps :
  package_depenencies_required_by (depenency_data w) !! package = Some deps →
  check_required_by package V depenency (q, reqs) w =
    (inr tt,
     if bool_decide (passes (target (depenency_data w)) package V depenency q reqs)
     then map_data (upd_required_by
            <[package := <[depenency := {[ q ]} ∪ default ∅ (deps !! depenency)]> deps]>) w
     else w).
Proof.
  intros Hdeps. unfold check_required_by, passes, bind, get_data.
  case_bool_decide; [|done].
  unfold required_by_add, bind, get_data. by rewrite Hdeps.
Qed.

(** The inner loop of lines 269-281, for one [depenency]. *)
Lemma required_by_inner_ok package V depenency items : ∀ w deps,
  package_depenencies_required_by (depenency_data w) !! package = Some deps →
  ∃ deps',
    for_each items (check_required_by package V depenency) w
      = (inr tt, map_data (upd_required_by <[package := deps']>) w)
    ∧ (∀ d q, q ∈ default ∅ (deps' !! d) ↔
         q ∈ default ∅ (deps !! d)
         ∨ (d = depenency ∧ ∃ reqs, (q, reqs) ∈ items
              ∧ passes (target (depenency_data w)) package V d q reqs))
    ∧ (∀ d, is_Some (deps' !! d) ↔
         is_Some (deps !! d)
         ∨ (d = depenency ∧ ∃ q reqs, (q, reqs) ∈ items
              ∧ passes (target (depenency_data w)) package V d q reqs)).
Proof.
  induction items as [|[q0 reqs0] items IH]; intros w deps Hdeps; cbn [for_each].
  { exists deps. split.
    - destruct w as [[] ?]; simpl in *. unfold ret, map_data, upd_required_by; simpl.
      by rewrite insert_id.
    - setoid_rewrite elem_of_nil. naive_solver. }
  rewrite (bind_eq _ _ _ _ _ (check_required_by_eq _ _ _ _ _ _ _ Hdeps)).
  case_bool_decide as Hcond.
  - set (deps1 := <[depenency := {[ q0 ]} ∪ default ∅ (deps !! depenency)]> deps).
    destruct (IH (map_data (upd_required_by <[package := deps1]>) w) deps1)
      as (deps' & -> & Hin & Hdom).
    { simpl. by rewrite lookup_insert_eq. }
    exists deps'. split.
    { unfold map_data, upd_required_by; simpl. by rewrite insert_insert_eq. }
    clear IH. simpl in Hin, Hdom. split.
    + intros d q. rewrite Hin. clear Hin Hdom. subst deps1.
      setoid_rewrite elem_of_cons. rewrite lookup_insert.
      case_decide as Hd; simpl.
      * subst d. rewrite elem_of_union, elem_of_singleton. naive_solver.
      * naive_solver.
    + intros d. rewrite Hdom. clear Hin Hdom. subst deps1.
      setoid_rewrite elem_of_cons. rewrite lookup_insert.
      case_decide as Hd; simpl.
      * subst d. split; [|naive_solver].
        intros _. right. split; [done|]. exists q0, reqs0. split; [by left|done].
      * naive_solver.
  - destruct (IH w deps Hdeps) as (deps' & -> & Hin & Hdom).
    exists deps'. split; [done|]. clear IH. split.
    + intros d q. rewrite Hin. setoid_rewrite elem_of_cons. naive_solver.
    + intros d. rewrite Hdom. setoid_rewrite elem_of_cons. naive_solver.
Qed.

(** The loops of lines 268-281. *)
Lemma required_by_loop_ok package V items ds : ∀ w deps,
  package_depenencies_required_by (depenency_data w) !! package = Some deps →
  ∃ deps',
    for_each ds (λ depenency,
      for_each items (check_required_by package V depenency)) w
      = (inr tt, map_data (upd_required_by <[package := deps']>) w)
    ∧ (∀ d q, q ∈ default ∅ (deps' !! d) ↔
         q ∈ default ∅ (deps !! d)
         ∨ (d ∈ ds ∧ ∃ reqs, (q, reqs) ∈ items
              ∧ passes (target (depenency_data w)) package V d q reqs))
    ∧ (∀ d, is_Some (deps' !! d) ↔
         is_Some (deps !! d)
         ∨ (d ∈ ds ∧ ∃ q reqs, (q, reqs) ∈ items
              ∧ passes (target (depenency_data w)) package V d q reqs)).
Proof.
  induction ds as [|d0 ds IH]; intros w deps Hdeps; cbn [for_each].
  { exists deps. split.
    - destruct w as [[] ?]; simpl in *. unfold ret, map_data, upd_required_by; simpl.
      by rewrite insert_id.
    - setoid_rewrite elem_of_nil. naive_solver. }
  destruct (required_by_inner_ok package V d0 items w deps Hdeps)
    as (deps1 & Hstep & Hin1 & Hdom1).
  rewrite (bind_eq _ _ _ _ _ Hstep).
  destruct (IH (map_data (upd_required_by <[package := deps1]>) w) deps1)
    as (deps' & -> & Hin & Hdom).
  { simpl. by rewrite lookup_insert_eq. }
  exists deps'. split.
  { unfold map_data, upd_required_by; simpl. by rewrite insert_insert_eq. }
  clear IH. simpl in Hin, Hdom. split.
  - intros d q. rewrite Hin, Hin1. setoid_rewrite elem_of_cons. naive_solver.
  - intros d. rewrite Hdom, Hdom1. setoid_rewrite elem_of_cons. naive_solver.
Qed.

End LoopFacts.

(** ** [_analyze_package_dependencies] *)

Section AnalyzeFacts.

Context (env : Installed).

Implicit Types (w : World) (data : DependencyData).

Lemma bind_set_data {B} f (k : unit → M World B) w :
  bind (set_data f) k w = k tt (map_data f w).
Proof. done. Qed.

Lemma bind_get_data {B} (k : DependencyData → M World B) w :
  bind get_data k w = k (depenency_data w) w.
Proof. done. Qed.

Lemma lookup_setdefault {V} (k : string) (v : V) (d : gmap string V) :
  setdefault k v d !! k = Some (default v (d !! k)).
Proof.
  unfold setdefault. destruct (d !! k) eqn:Hk; simpl; [done|].
  by rewrite lookup_insert_eq.
Qed.

Lemma insert_setdefault {V} (k : string) (v v' : V) (d : gmap string V) :
  <[k := v']> (setdefault k v d) = <[k := v']> d.
Proof.
  unfold setdefault. destruct (d !! k); [done|]. by rewrite insert_insert_eq.
Qed.

Lemma pull_requirements_ok package w p reqs w1 :
  aliases_ok env (alias_to_names w) →
  pull_requirements env package w = (inr (p, reqs), w1) →
  installed_as env package = Some p
  ∧ distributions env !! p = Some reqs
  ∧ aliases_ok env (alias_to_names w1)
  ∧ depenency_data w1 = depenency_data w.
Proof.
  intros Hc. unfold pull_requirements, package_to_requirements, installed_as.
  destruct (distributions env !! package) as [reqs0|] eqn:Hp.
  { intros [= <- <- <-]. done. }
  intros (p' & w0 & Hget & Hrest)%bind_inr.
  unfold with_aliases in Hget.
  destruct (get_distribution env package (alias_to_names w)) as [r c] eqn:Hg.
  injection Hget as -> <-.
  apply get_distribution_ok in Hg as [Hc0 Hp']; [|done].
  unfold installed_as in Hp'. rewrite Hp in Hp'.
  destruct (distributions env !! p') as [reqs'|] eqn:Hreqs; [|done].
  injection Hrest as <- <- <-. done.
Qed.

Lemma set_safe_to_removed_eq package V w deps :
  package_depenencies_required_by (depenency_data w) !! package = Some deps →
  set_safe_to_removed package V w =
    (inr tt, map_data (upd_safe_to_removed
                         <[package := filter (λ d, d ∉ dom deps) V]>) w).
Proof.
  intros Hdeps. unfold set_safe_to_removed. rewrite bind_get_data.
  by rewrite Hdeps.
Qed.

Lemma analyze_skip package w :
  package ∈ WHITELIST ∨ package ∈ analyzed_packages (depenency_data w) →
  _analyze_package_dependencies env package w = (inr tt, w).
Proof.
  intros H. unfold _analyze_package_dependencies. rewrite bind_get_data.
  by rewrite bool_decide_eq_true_2.
Qed.

(** What a call that does not return at line 220 leaves behind. *)
Lemma analyze_ok package w w' :
  aliases_ok env (alias_to_names w) →
  package ∉ WHITELIST →
  package ∉ analyzed_packages (depenency_data w) →
  _analyze_package_dependencies env package w = (inr tt, w') →
  let data := depenency_data w in
  ∃ (p : string) (reqs : list string) (V : gset string)
    (NI WL : gset (string * string)) (T : gset string)
    (deps' : gmap string (gset string)),
    installed_as env package = Some p
    ∧ distributions env !! p = Some reqs
    ∧ aliases_ok env (alias_to_names w')
    ∧ (∀ d, d ∈ V ↔ vaild env reqs d)
    ∧ (∀ x, x ∈ NI ↔ x ∈ never_installed data
              ∨ ∃ d, x = (p, d) ∧ d ∈ reqs ∧ ¬ installed env d)
    ∧ (∀ x, x ∈ WL ↔ x ∈ whitelisted data
              ∨ ∃ d, x = (p, d) ∧ d ∈ reqs ∧ installed env d ∧ d ∈ WHITELIST)
    ∧ (∀ q, q ∈ T ↔ q ∈ this_requires_by data
              ∨ (p = target data ∧ requires_this env p q))
    ∧ (∀ d q, q ∈ default ∅ (deps' !! d) ↔
         q ∈ default ∅ (default ∅ (package_depenencies_required_by data !! p) !! d)
         ∨ (vaild env reqs d ∧ requires_too env (target data) p reqs d q))
    ∧ (∀ d, is_Some (deps' !! d) ↔
         is_Some (default ∅ (package_depenencies_required_by data !! p) !! d)
         ∨ (vaild env reqs d ∧ ∃ q, requires_too env (target data) p reqs d q))
    ∧ depenency_data w' =
        {| target := target data;
           whitelisted := WL;
           safe_to_removed :=
             <[p := filter (λ d, d ∉ dom deps') V]> (safe_to_removed data);
           package_depenencies_required_by :=
             <[p := deps']> (package_depenencies_required_by data);
           this_requires_by := T;
           never_installed := NI;
           analyzed_packages := {[ p ]} ∪ analyzed_packages data |}.
Proof.
  intros Hc Hwl Han. unfold _analyze_package_dependencies.
  rewrite bind_get_data. rewrite bool_decide_eq_false_2 by tauto.
  intros ([p reqs] & w1 & Hpull & H)%bind_inr.
  apply pull_requirements_ok in Hpull as (Hp & Hreqs & Hc1 & Hd1); [|done].
  rewrite !bind_set_data in H.
  apply bind_inr in H as (V & w3 & Hsort & H).
  apply sort_entries_ok in Hsort as (Hc3 & HV & NI & WL & Hd3 & HNI & HWL);
    [|done].
  simpl_data. rewrite Hd1 in Hd3, HNI, HWL.
  assert (∀ d, d ∈ V ↔ vaild env reqs d) as HV'.
  { intros d. rewrite HV, elem_of_empty. tauto. }
  clear HV. rename HV' into HV.
  (* lines 259-266 *)
  assert (∃ T, (∀ q, q ∈ T ↔ q ∈ this_requires_by (depenency_data w)
                  ∨ (p = target (depenency_data w) ∧ requires_this env p q))
    ∧ ∀ B (k : unit → M World B),
        bind (if bool_decide (p = target (depenency_data w))
              then for_each (map_to_list (package_to_requirements env))
                     (check_requires_this p)
              else ret tt) k w3
        = k tt (map_data (upd_this_requires_by (λ _, T)) w3)) as (T & HT & HTeq).
  { case_bool_decide as Htgt.
    - destruct (requires_this_loop_ok p (map_to_list (package_to_requirements env)) w3)
        as (T & HTeq & HT).
      exists T. split.
      + intros q. rewrite HT, Hd3. simpl_data.
        unfold requires_this, package_to_requirements.
        setoid_rewrite elem_of_map_to_list. naive_solver.
      + intros B k. by rewrite (bind_eq _ _ _ _ _ HTeq).
    - exists (this_requires_by (depenency_data w)). split; [naive_solver|].
      intros B k. unfold bind, ret. do 2 f_equal.
      destruct w3 as [d3 c3]. simpl_data. subst d3.
      unfold map_data; simpl_data. by destruct (depenency_data w). }
  rewrite HTeq in H. clear HTeq.
  (* lines 268-281 *)
  set (w4 := map_data (upd_this_requires_by (λ _, T)) w3) in H.
  set (deps0 := default ∅ (package_depenencies_required_by (depenency_data w) !! p)).
  assert (package_depenencies_required_by (depenency_data w4) !! p = Some deps0)
    as Hdeps0.
  { subst w4. simpl_data. rewrite Hd3. simpl_data. apply lookup_setdefault. }
  destruct (required_by_loop_ok p V (map_to_list (package_to_requirements env))
              (elements V) w4 deps0 Hdeps0) as (deps' & Hloop & Hin & Hdom).
  rewrite (bind_eq _ _ _ _ _ Hloop) in H. clear Hloop.
  assert (target (depenency_data w4) = target (depenency_data w)) as Htgt.
  { subst w4. simpl_data. by rewrite Hd3. }
  rewrite Htgt in Hin, Hdom.
  (* lines 283-289 *)
  pose proof (set_safe_to_removed_eq p V
    (map_data (upd_required_by <[p := deps']>) w4) deps') as Hsafe.
  rewrite (bind_eq _ _ _ _ _ (Hsafe ltac:(simpl_data; apply lookup_insert_eq))) in H.
  clear Hsafe.
  cbv beta in H. unfold set_data, modify in H. injection H as <-.
  exists p, reqs, V, NI, WL, T, deps'.
  assert (∀ d q, (∃ reqs0, (q, reqs0) ∈ map_to_list (package_to_requirements env)
                    ∧ passes (target (depenency_data w)) p V d q reqs0)
                 ↔ requires_too env (target (depenency_data w)) p reqs d q) as Hpass.
  { intros d q. unfold passes, requires_too, package_to_requirements.
    setoid_rewrite elem_of_map_to_list.
    split; intros (r & ? & ? & ? & Hv & ? & ?); exists r; split_and!; try done;
      [rewrite <- HV | rewrite HV]; done. }
  split_and!; try done.
  - intros d q. rewrite Hin, elem_of_elements, HV, Hpass. done.
  - intros d. rewrite Hdom, elem_of_elements, HV.
    split; (intros [?|[? (q & Hq)]]; [by left|right; split; [done|exists q]]).
    + destruct Hq as [r Hq]. apply Hpass. eauto.
    + apply Hpass in Hq. naive_solver.
  - subst w4. simpl_data. rewrite Hd3. simpl_data.
    by rewrite !insert_setdefault.
Qed.

(** *** When the calls return

    With an index in which every name [importlib.metadata.distribution]
    answers is a key of the dict, nothing raises [KeyError] or
    [RuntimeError], and analyzing an installed package returns. *)

Lemma does_pkg_exists_returns pkg c :
  index_consistent env → aliases_ok env c →
  ∃ found c', does_pkg_exists env pkg c = (inr found, c').
Proof.
  intros Hcons Hc. rewrite does_pkg_exists_cases.
  destruct (get_distribution env pkg c) as [[e|d] c'] eqn:Hg; [|by eauto].
  destruct (get_distribution_ok _ _ _ _ _ Hc Hg) as [_ Hr].
  destruct Hr as [(-> & _)|(key & -> & _ & Hd & Hkey)]; [by eauto|].
  apply Hcons in Hd as [? Hd]. congruence.
Qed.

Lemma sort_entries_returns package requirements : ∀ V0 w,
  index_consistent env → aliases_ok env (alias_to_names w) →
  ∃ V w', fold_for requirements (sort_entry env package) V0 w = (inr V, w').
Proof.
  induction requirements as [|entry requirements IH]; intros V0 w Hcons Hc;
    cbn [fold_for].
  { by exists V0, w. }
  assert (∃ V1 w1, sort_entry env package entry V0 w = (inr V1, w1)
                   ∧ aliases_ok env (alias_to_names w1)) as (V1 & w1 & Hstep & Hc1).
  { unfold sort_entry.
    destruct (does_pkg_exists_returns entry (alias_to_names w) Hcons Hc)
      as (found & c' & Hex).
    destruct (does_pkg_exists_ok _ _ _ _ _ Hc Hex) as [Hc' _].
    assert (with_aliases (does_pkg_exists env entry) w
              = (inr found, {| depenency_data := depenency_data w;
                               alias_to_names := c' |})) as Hwith.
    { unfold with_aliases. by rewrite Hex. }
    rewrite (bind_eq _ _ _ _ _ Hwith).
    destruct found; simpl; [case_bool_decide|]; eauto. }
  rewrite (bind_eq _ _ _ _ _ Hstep). by apply IH.
Qed.

Lemma pull_requirements_returns package w :
  index_consistent env → aliases_ok env (alias_to_names w) →
  installed env package →
  ∃ p reqs w1, pull_requirements env package w = (inr (p, reqs), w1).
Proof.
  intros Hcons Hc Hin. unfold pull_requirements, package_to_requirements.
  destruct (distributions env !! package) as [reqs|] eqn:Hp; [by eauto|].
  destruct (get_distribution env package (alias_to_names w)) as [[e|d] c'] eqn:Hg;
    destruct (get_distribution_ok _ _ _ _ _ Hc Hg) as [_ Hr].
  - exfalso. destruct Hr as [(_ & Hno & _)|(key & _ & _ & Hd & Hkey)]; [done|].
    apply Hcons in Hd as [? Hd]. congruence.
  - assert (with_aliases (get_distribution env package) w
              = (inr d, {| depenency_data := depenency_data w;
                           alias_to_names := c' |})) as Hwith.
    { unfold with_aliases. by rewrite Hg. }
    rewrite (bind_eq _ _ _ _ _ Hwith).
    unfold installed_as in Hr. rewrite Hp in Hr.
    apply Hcons in Hr as [reqs Hreqs]. rewrite Hreqs. eauto.
Qed.

Lemma analyze_returns package w :
  index_consistent env → aliases_ok env (alias_to_names w) →
  installed env package →
  ∃ w', _analyze_package_dependencies env package w = (inr tt, w').
Proof.
  intros Hcons Hc Hin.
  destruct (decide (package ∈ WHITELIST
                    ∨ package ∈ analyzed_packages (depenency_data w))) as [Hskip|Hgo].
  { exists w. by apply analyze_skip. }
  unfold _analyze_package_dependencies.
  rewrite bind_get_data, bool_decide_eq_false_2 by done.
  destruct (pull_requirements_returns package w Hcons Hc Hin)
    as (p & reqs & w1 & Hpull).
  rewrite (bind_eq _ _ _ _ _ Hpull).
  apply pull_requirements_ok in Hpull as (_ & _ & Hc1 & _); [|done].
  rewrite !bind_set_data.
  set (w2 := map_data _ (map_data _ w1)).
  destruct (sort_entries_returns p reqs ∅ w2 Hcons Hc1) as (V & w3 & Hsort).
  rewrite (bind_eq _ _ _ _ _ Hsort).
  apply sort_entries_ok in Hsort as (_ & _ & NI & WL & Hd3 & _); [|done].
  assert (∃ w4, depenency_data w4 =
                  upd_this_requires_by (λ _, this_requires_by (depenency_data w4))
                    (depenency_data w3)
    ∧ ∀ B (k : unit → M World B),
        bind (if bool_decide (p = target (depenency_data w))
              then for_each (map_to_list (package_to_requirements env))
                     (check_requires_this p)
              else ret tt) k w3 = k tt w4) as (w4 & Hd4 & ->).
  { case_bool_decide.
    - destruct (requires_this_loop_ok p (map_to_list (package_to_requirements env)) w3)
        as (T & HTeq & _).
      eexists. split; [|intros B k; by rewrite (bind_eq _ _ _ _ _ HTeq)].
      reflexivity.
    - exists w3. split; [by destruct w3 as [[] ?]|done]. }
  assert (is_Some (package_depenencies_required_by (depenency_data w4) !! p))
    as [deps0 Hdeps0].
  { rewrite Hd4, Hd3. subst w2. simpl_data. rewrite lookup_setdefault. eauto. }
  destruct (required_by_loop_ok p V (map_to_list (package_to_requirements env))
              (elements V) w4 deps0 Hdeps0) as (deps' & Hloop & _).
  rewrite (bind_eq _ _ _ _ _ Hloop).
  pose proof (set_safe_to_removed_eq p V
    (map_data (upd_required_by <[p := deps']>) w4) deps') as Hsafe.
  rewrite (bind_eq _ _ _ _ _ (Hsafe ltac:(simpl_data; apply lookup_insert_eq))).
  eauto.
Qed.

Lemma data_ok_new tgt : data_ok env (DependencyData_new tgt).
Proof.
  split.
  - intros p. simpl. by rewrite elem_of_empty.
  - intros p _. simpl. rewrite !lookup_empty. split_and!; try done;
      rewrite elem_of_empty; tauto.
Qed.

(** What [data_ok] says of the entries of any package, analyzed or not. *)
Lemma data_ok_sound data p reqs :
  data_ok env data → distributions env !! p = Some reqs →
  let deps0 := default (∅ : gmap string (gset string))
                 (package_depenencies_required_by data !! p) in
  (∀ d, (p, d) ∈ never_installed data → d ∈ reqs ∧ ¬ installed env d)
  ∧ (∀ d, (p, d) ∈ whitelisted data → d ∈ reqs ∧ installed env d ∧ d ∈ WHITELIST)
  ∧ (∀ d q, q ∈ default ∅ (deps0 !! d) →
       vaild env reqs d ∧ requires_too env (target data) p reqs d q)
  ∧ (∀ d, is_Some (deps0 !! d) →
       vaild env reqs d ∧ ∃ q, requires_too env (target data) p reqs d q).
Proof.
  intros [Han Hnot] Hreqs.
  destruct (decide (p ∈ analyzed_packages data)) as [Hp|Hp].
  - destruct (Han p Hp) as (reqs' & S & deps & Hreqs' & HS & Hdeps & Hni & Hwl
                            & Hin & Hdom & _).
    rewrite Hreqs in Hreqs'. injection Hreqs' as <-.
    rewrite Hdeps. simpl. split_and!; intros d.
    + by rewrite Hni.
    + by rewrite Hwl.
    + intros q. by rewrite Hin.
    + by rewrite Hdom.
  - destruct (Hnot p Hp) as (_ & -> & Hpairs). simpl. split_and!; intros d.
    + intros H. by apply Hpairs in H.
    + intros H. by apply Hpairs in H.
    + intros q. rewrite lookup_empty. simpl. by rewrite elem_of_empty.
    + rewrite lookup_empty. by intros [? ?].
Qed.

(** [_analyze_package_dependencies] keeps the invariant. *)
Lemma analyze_keeps_ok package w w' :
  aliases_ok env (alias_to_names w) →
  data_ok env (depenency_data w) →
  _analyze_package_dependencies env package w = (inr tt, w') →
  aliases_ok env (alias_to_names w')
  ∧ data_ok env (depenency_data w')
  ∧ target (depenency_data w') = target (depenency_data w).
Proof.
  intros Hc Hok Hrun.
  destruct (decide (package ∈ WHITELIST
                    ∨ package ∈ analyzed_packages (depenency_data w))) as [Hskip|Hgo].
  { rewrite analyze_skip in Hrun by done. by injection Hrun as <-. }
  apply analyze_ok in Hrun; [|done|tauto|tauto].
  destruct Hrun as (p & reqs & V & NI & WL & T & deps' & Hp & Hreqs & Hc' & HV
                    & HNI & HWL & HT & Hin & Hdom & ->).
  split; [done|]. split; [|done].
  destruct (data_ok_sound _ p reqs Hok Hreqs) as (Sni & Swl & Sin & Sdom).
  destruct Hok as [Han Hnot].
  split; simpl_data.
  - intros p' Hp'. destruct (decide (p' = p)) as [->|Hne].
    + exists reqs, (filter (λ d, d ∉ dom deps') V), deps'. simpl_data.
      rewrite !lookup_insert_eq. split_and!; try done.
      * intros d. rewrite HNI. split; [|intros [? ?]; right; by exists d].
        intros [H|(d0 & [= <-] & H)]; [by apply Sni|done].
      * intros d. rewrite HWL. split; [|intros (? & ? & ?); right; by exists d].
        intros [H|(d0 & [= <-] & H)]; [by apply Swl|done].
      * intros d q. rewrite Hin. split; [|intros H; by right].
        intros [H|H]; [by apply Sin|done].
      * intros d. rewrite Hdom. split; [|intros H; by right].
        intros [H|H]; [by apply Sdom|done].
      * intros d. rewrite elem_of_filter, elem_of_dom, Hdom, HV.
        split.
        -- intros [Hnone Hv]. split; [done|]. intros Hq. apply Hnone. by right.
        -- intros [Hv Hnone]. split; [|done].
           intros [H|[_ H]]; [|done]. apply Sdom in H as [_ H]. done.
    + assert (p' ∈ analyzed_packages (depenency_data w)) as Hold.
      { apply elem_of_union in Hp' as [Hp'|Hp']; [|done].
        by apply elem_of_singleton in Hp'. }
      destruct (Han p' Hold)
        as (reqs' & S & deps & ? & ? & ? & Hni & Hwl & ? & ? & ?).
      exists reqs', S, deps. simpl_data. rewrite !lookup_insert_ne by done.
      split_and!; try done.
      * intros d. rewrite HNI, <- Hni. split; [|by left].
        intros [Hx|(d0 & [= -> <-] & Hx)]; done.
      * intros d. rewrite HWL, <- Hwl. split; [|by left].
        intros [Hx|(d0 & [= -> <-] & Hx)]; done.
  - intros p' Hp'.
    assert (p' ≠ p ∧ p' ∉ analyzed_packages (depenency_data w)) as [Hne Hold].
    { rewrite elem_of_union, elem_of_singleton in Hp'. tauto. }
    destruct (Hnot p' Hold) as (? & ? & Hpairs).
    rewrite !lookup_insert_ne by done. split_and!; try done.
    intros d. rewrite HNI, HWL. destruct (Hpairs d) as [Hn1 Hn2].
    split; intros [Hx|(d0 & [= -> <-] & Hx)]; done.
Qed.

Lemma reachable_ok w :
  reachable env w → aliases_ok env (alias_to_names w) ∧ data_ok env (depenency_data w).
Proof.
  induction 1 as [tgt aliases Hc|package w w' _ [Hc Hok] Hrun].
  - split; [done|apply data_ok_new].
  - by destruct (analyze_keeps_ok _ _ _ Hc Hok Hrun) as (? & ? & _).
Qed.

End AnalyzeFacts.

(** ** The classification of one package *)

Section Classification.

Context (env : Installed).

Implicit Types (w : World) (data : DependencyData).

(** After a call that returns, the invariant holds. *)
Lemma analyze_from_reachable package w w' :
  reachable env w →
  _analyze_package_dependencies env package w = (inr tt, w') →
  data_ok env (depenency_data w').
Proof.
  intros [Hc Hok]%reachable_ok Hrun.
  by destruct (analyze_keeps_ok _ _ _ _ Hc Hok Hrun) as (_ & ? & _).
Qed.

Lemma sorted_out_partition data p reqs d :
  sorted_out env data p → distributions env !! p = Some reqs → d ∈ reqs →
  exactly_one ((p, d) ∈ whitelisted data) ((p, d) ∈ never_installed data)
              (d ∈ safe_of data p) (d ∈ required_keys data p).
Proof.
  intros (reqs' & S & deps & Hreqs' & HS & Hdeps & Hni & Hwl & _ & Hdom & Hsafe)
    Hreqs Hd.
  rewrite Hreqs in Hreqs'. injection Hreqs' as <-.
  unfold exactly_one, safe_of, required_keys. rewrite HS, Hdeps. simpl.
  rewrite Hni, Hwl, Hsafe, elem_of_dom, Hdom. unfold vaild.
  destruct (decide (installed env d)) as [Hin|Hin];
    [destruct (decide (d ∈ WHITELIST)) as [Hw|Hw];
     [|destruct (deps !! d) as [Q|] eqn:HQ]|].
  - left. tauto.
  - assert (is_Some (deps !! d)) as HQ' by (rewrite HQ; eauto).
    apply Hdom in HQ' as [_ HQ'].
    right; right; right. tauto.
  - assert (¬ ∃ q, requires_too env (target data) p reqs d q) as Hnone.
    { intros Hq. assert (is_Some (deps !! d)) as [? ?]; [|congruence].
      apply Hdom. unfold vaild. tauto. }
    right; right; left. tauto.
  - right; left. tauto.
Qed.

(** C7. A package that is in the whitelist or already analyzed is skipped:
    [_analyze_package_dependencies] returns at once, and the resolver's data
    (and the alias cache) are what they were. *)
Theorem analyze_skips_protected_and_analyzed package w :
  package ∈ WHITELIST ∨ package ∈ analyzed_packages (depenency_data w) →
  _analyze_package_dependencies env package w = (inr tt, w).
Proof. apply analyze_skip. Qed.

(** C1. In a resolver state reached by calls of
    [_analyze_package_dependencies], once a further call has returned, each
    requirement [d] of each analyzed package [p] is in exactly one of:
    [whitelisted] (as the pair [(p, d)]), [never_installed] (as the pair),
    [safe_to_removed[p]], the keys of [package_depenencies_required_by[p]]. *)
Theorem classification_is_a_partition package w w' p reqs d :
  reachable env w →
  _analyze_package_dependencies env package w = (inr tt, w') →
  p ∈ analyzed_packages (depenency_data w') →
  distributions env !! p = Some reqs →
  d ∈ reqs →
  exactly_one ((p, d) ∈ whitelisted (depenency_data w'))
              ((p, d) ∈ never_installed (depenency_data w'))
              (d ∈ safe_of (depenency_data w') p)
              (d ∈ required_keys (depenency_data w') p).
Proof.
  intros Hreach Hrun Hp Hreqs Hd.
  destruct (analyze_from_reachable _ _ _ Hreach Hrun) as [Han _].
  apply (sorted_out_partition _ _ reqs); [by apply Han|done|done].
Qed.

(** C4. After such a call, a requirement [d] of an analyzed package [p] that
    is installed, is not in the whitelist and is required by no installed
    package other than [p] is in [safe_to_removed[p]]. *)
Theorem unshared_requirement_is_safe package w w' p reqs d :
  reachable env w →
  _analyze_package_dependencies env package w = (inr tt, w') →
  p ∈ analyzed_packages (depenency_data w') →
  distributions env !! p = Some reqs →
  d ∈ reqs →
  installed env d →
  d ∉ WHITELIST →
  (∀ q reqs_q, distributions env !! q = Some reqs_q → d ∈ reqs_q → q = p) →
  d ∈ safe_of (depenency_data w') p.
Proof.
  intros Hreach Hrun Hp Hreqs Hd Hin Hw Honly.
  destruct (analyze_from_reachable _ _ _ Hreach Hrun) as [Han _].
  destruct (Han p Hp) as (reqs' & S & deps & Hreqs' & HS & _ & _ & _ & _ & _ & Hsafe).
  rewrite Hreqs in Hreqs'. injection Hreqs' as <-.
  unfold safe_of. rewrite HS. simpl. apply Hsafe. split; [done|].
  intros (q & reqs_q & Hq & Hdq & Hne & _). by apply Hne, (Honly q reqs_q).
Qed.

(** C2, amended. After such a call, let [d] be a requirement of an analyzed
    package [p], installed and not in the whitelist, and let [q] be an
    installed package that requires [d], with [q ≠ p], [q] not in the
    whitelist, [q] not the target, and [q] not itself a requirement of [p].
    Then [d] is not in [safe_to_removed[p]] and [q] is in
    [package_depenencies_required_by[p][d]]. *)
Theorem shared_requirement_is_kept package w w' p reqs d q reqs_q :
  reachable env w →
  _analyze_package_dependencies env package w = (inr tt, w') →
  p ∈ analyzed_packages (depenency_data w') →
  distributions env !! p = Some reqs →
  d ∈ reqs →
  installed env d →
  d ∉ WHITELIST →
  distributions env !! q = Some reqs_q →
  d ∈ reqs_q →
  q ≠ p →
  q ∉ WHITELIST →
  q ≠ target (depenency_data w') →
  q ∉ reqs →
  (d ∉ safe_of (depenency_data w') p)
  ∧ q ∈ required_by_of (depenency_data w') p d.
Proof.
  intros Hreach Hrun Hp Hreqs Hd Hin Hw Hq Hdq Hne Hqw Hqt Hqr.
  destruct (analyze_from_reachable _ _ _ Hreach Hrun) as [Han _].
  destruct (Han p Hp) as (reqs' & S & deps & Hreqs' & HS & Hdeps & _ & _ & Hby & _ & Hsafe).
  rewrite Hreqs in Hreqs'. injection Hreqs' as <-.
  assert (requires_too env (target (depenency_data w')) p reqs d q) as Htoo.
  { exists reqs_q. split_and!; try done. by intros [? _]. }
  unfold safe_of, required_by_of. rewrite HS, Hdeps. simpl. split.
  - rewrite Hsafe. intros [_ Hnone]. apply Hnone. by exists q.
  - apply Hby. by split.
Qed.

End Classification.

(** ** The pass of lines 307-314 *)

Section DropRemoved.

Implicit Types (w : World) (data : DependencyData).

Lemma drop_if_removed_eq i mdep mdep_deps w :
  drop_if_removed i (mdep, mdep_deps) w =
    if bool_decide (i ∈ mdep_deps) then
      if bool_decide (i ∈ this_requires_by (depenency_data w))
      then (inr tt, map_data (upd_this_requires_by (λ s, s ∖ {[ i ]})) w)
      else (inl (KeyError i), w)
    else (inr tt, w).
Proof.
  unfold drop_if_removed. case_bool_decide; [|done].
  rewrite bind_get_data. by case_bool_decide.
Qed.

(** The inner loop, when it returns. *)
Lemma drop_inner_returns i items : ∀ w w',
  for_each items (drop_if_removed i) w = (inr tt, w') →
  ∃ T' : gset string,
    w' = map_data (upd_this_requires_by (λ _, T')) w
    ∧ T' ⊆ this_requires_by (depenency_data w)
    ∧ ((∃ mdep mdep_deps, (mdep, mdep_deps) ∈ items ∧ i ∈ mdep_deps) → i ∉ T').
Proof.
  induction items as [|[mdep mdep_deps] items IH]; intros w w'; cbn [for_each].
  { intros [= <-]. exists (this_requires_by (depenency_data w)).
    split; [by destruct w as [[] ?]|]. split; [done|].
    intros (? & ? & []%elem_of_nil & _). }
  intros (u & w1 & Hstep & Hrest)%bind_inr.
  rewrite drop_if_removed_eq in Hstep.
  apply IH in Hrest as (T' & -> & Hsub & Hgone). clear IH.
  case_bool_decide as Hi.
  - case_bool_decide as Hin; [|done]. injection Hstep as ?; subst w1.
    exists T'. split; [reflexivity|]. simpl_data.
    split; [set_solver|]. intros _. set_solver.
  - injection Hstep as ?; subst w1. exists T'. split; [done|]. split; [done|].
    intros (m & deps & [[= -> ->]|Hm]%elem_of_cons & Hdeps); [done|].
    apply Hgone. eauto.
Qed.

(** The outer loop, when it returns. *)
Lemma drop_outer_returns is_ : ∀ w w',
  for_each is_ (λ i,
    do data <- get_data;
    for_each (map_to_list (safe_to_removed data)) (drop_if_removed i)) w
    = (inr tt, w') →
  ∃ T' : gset string,
    w' = map_data (upd_this_requires_by (λ _, T')) w
    ∧ T' ⊆ this_requires_by (depenency_data w)
    ∧ ∀ i, i ∈ is_ →
        (∃ mdep mdep_deps,
            safe_to_removed (depenency_data w) !! mdep = Some mdep_deps
            ∧ i ∈ mdep_deps) →
        i ∉ T'.
Proof.
  induction is_ as [|i0 is_ IH]; intros w w'; cbn [for_each].
  { intros [= <-]. exists (this_requires_by (depenency_data w)).
    split; [by destruct w as [[] ?]|]. split; [done|].
    by intros i []%elem_of_nil. }
  intros ([] & w1 & Hstep & Hrest)%bind_inr.
  rewrite bind_get_data in Hstep.
  apply drop_inner_returns in Hstep as (T1 & -> & Hsub1 & Hgone1).
  apply IH in Hrest as (T' & -> & Hsub & Hgone). clear IH. simpl_data.
  exists T'. split; [reflexivity|]. split; [set_solver|].
  intros i [->|Hi]%elem_of_cons (m & deps & Hm & Hdeps).
  - assert (i0 ∉ T1); [|set_solver].
    apply Hgone1. exists m, deps. by rewrite elem_of_map_to_list.
  - apply Hgone; [done|]. eauto.
Qed.

Lemma drop_removed_returns w w' :
  drop_removed w = (inr tt, w') →
  ∃ T' : gset string,
    w' = map_data (upd_this_requires_by (λ _, T')) w
    ∧ T' ⊆ this_requires_by (depenency_data w)
    ∧ ∀ i, i ∈ this_requires_by (depenency_data w) →
        (∃ mdep mdep_deps,
            safe_to_removed (depenency_data w) !! mdep = Some mdep_deps
            ∧ i ∈ mdep_deps) →
        i ∉ T'.
Proof.
  unfold drop_removed. rewrite bind_get_data.
  intros (T' & -> & Hsub & Hgone)%drop_outer_returns.
  exists T'. split; [done|]. split; [done|].
  intros i Hi. apply Hgone. by apply elem_of_elements.
Qed.

(** *** When the pass raises

    [remove] is called once for every set of [safe_to_removed] that has [i],
    so two such sets make the second call raise. *)

Lemma drop_inner_raises_absent i items : ∀ w,
  i ∉ this_requires_by (depenency_data w) →
  (∃ mdep mdep_deps, (mdep, mdep_deps) ∈ items ∧ i ∈ mdep_deps) →
  for_each items (drop_if_removed i) w = (inl (KeyError i), w).
Proof.
  induction items as [|[mdep0 deps0] items IH]; intros w Hi (m & deps & Hm & Hdeps).
  { by apply elem_of_nil in Hm. }
  cbn [for_each]. unfold bind at 1. rewrite drop_if_removed_eq.
  case_bool_decide as Hi0.
  - by rewrite bool_decide_eq_false_2.
  - apply IH; [done|]. apply elem_of_cons in Hm as [[= -> ->]|Hm]; [done|eauto].
Qed.

Lemma drop_inner_raises_twice i items : ∀ w m1 deps1 m2 deps2,
  (m1, deps1) ∈ items → (m2, deps2) ∈ items → m1 ≠ m2 →
  i ∈ deps1 → i ∈ deps2 →
  ∃ w', for_each items (drop_if_removed i) w = (inl (KeyError i), w').
Proof.
  induction items as [|[mdep0 deps0] items IH];
    intros w m1 deps1 m2 deps2 H1 H2 Hne Hi1 Hi2.
  { by apply elem_of_nil in H1. }
  cbn [for_each]. unfold bind at 1. rewrite drop_if_removed_eq.
  case_bool_decide as Hi0.
  - case_bool_decide as Hin; [|by eauto].
    eexists. apply drop_inner_raises_absent.
    + simpl_data. set_solver.
    + apply elem_of_cons in H1 as [[= -> ->]|H1]; [|by eauto].
      apply elem_of_cons in H2 as [[= -> ->]|H2]; [done|by eauto].
  - apply (IH w m1 deps1 m2 deps2); try done.
    + apply elem_of_cons in H1 as [[= -> ->]|H1]; done.
    + apply elem_of_cons in H2 as [[= -> ->]|H2]; done.
Qed.

Lemma drop_inner_raises_only i items : ∀ w e w',
  for_each items (drop_if_removed i) w = (inl e, w') → e = KeyError i.
Proof.
  induction items as [|[mdep0 deps0] items IH]; intros w e w'; cbn [for_each].
  { intros [=]. }
  unfold bind at 1. rewrite drop_if_removed_eq.
  repeat case_bool_decide; try apply IH. by intros [= <- _].
Qed.

Lemma drop_outer_raises is_ : ∀ w i m1 deps1 m2 deps2,
  i ∈ is_ →
  safe_to_removed (depenency_data w) !! m1 = Some deps1 →
  safe_to_removed (depenency_data w) !! m2 = Some deps2 →
  m1 ≠ m2 → i ∈ deps1 → i ∈ deps2 →
  ∃ j w',
    for_each is_ (λ i,
      do data <- get_data;
      for_each (map_to_list (safe_to_removed data)) (drop_if_removed i)) w
    = (inl (KeyError j), w').
Proof.
  induction is_ as [|i0 is_ IH]; intros w i m1 deps1 m2 deps2 Hi H1 H2 Hne Hi1 Hi2.
  { by apply elem_of_nil in Hi. }
  cbn [for_each]. unfold bind at 1. rewrite bind_get_data.
  destruct (for_each (map_to_list (safe_to_removed (depenency_data w)))
              (drop_if_removed i0) w) as [[e|[]] w1] eqn:Hinner.
  { apply drop_inner_raises_only in Hinner as ->. eauto. }
  apply elem_of_cons in Hi as [->|Hi].
  - destruct (drop_inner_raises_twice i0
                (map_to_list (safe_to_removed (depenency_data w))) w
                m1 deps1 m2 deps2) as (w'' & Hraise);
      try done; try by apply elem_of_map_to_list.
    congruence.
  - apply drop_inner_returns in Hinner as (T1 & -> & _).
    by apply (IH _ i m1 deps1 m2 deps2).
Qed.

(** Whenever a package of [this_requires_by] is in the sets of
    [safe_to_removed] of two packages, the pass raises [KeyError]. *)
Lemma drop_removed_raises w i m1 deps1 m2 deps2 :
  i ∈ this_requires_by (depenency_data w) →
  safe_to_removed (depenency_data w) !! m1 = Some deps1 →
  safe_to_removed (depenency_data w) !! m2 = Some deps2 →
  m1 ≠ m2 → i ∈ deps1 → i ∈ deps2 →
  ∃ j w', drop_removed w = (inl (KeyError j), w').
Proof.
  intros Hi. unfold drop_removed. rewrite bind_get_data.
  apply drop_outer_raises. by apply elem_of_elements.
Qed.

(** C6. When the pass of lines 307-314 returns, a package [i] that was in
    [this_requires_by] before it and is in one of the sets of
    [safe_to_removed] is not in [this_requires_by] after it. *)
Theorem drop_removed_drops w w' i mdep mdep_deps :
  drop_removed w = (inr tt, w') →
  i ∈ this_requires_by (depenency_data w) →
  safe_to_removed (depenency_data w) !! mdep = Some mdep_deps →
  i ∈ mdep_deps →
  i ∉ this_requires_by (depenency_data w').
Proof.
  intros (T' & -> & _ & Hgone)%drop_removed_returns Hi Hm Hdeps.
  simpl_data. apply Hgone; eauto.
Qed.

End DropRemoved.

(** ** [analyze_recursively], [__init__] and [_main] *)

Section Orchestration.

Context (env : Installed).

Implicit Types (w : World) (data : DependencyData).

Lemma analyze_all_reachable packages : ∀ w w',
  reachable env w →
  for_each packages (_analyze_package_dependencies env) w = (inr tt, w') →
  reachable env w'.
Proof.
  induction packages as [|t packages IH]; intros w w' Hreach; cbn [for_each].
  { by intros [= <-]. }
  intros ([] & w1 & Hstep & Hrest)%bind_inr.
  eapply IH; [|done]. by eapply reachable_analyze.
Qed.

Lemma analyze_all_target packages : ∀ w w',
  reachable env w →
  for_each packages (_analyze_package_dependencies env) w = (inr tt, w') →
  target (depenency_data w') = target (depenency_data w).
Proof.
  induction packages as [|t packages IH]; intros w w' Hreach; cbn [for_each].
  { by intros [= <-]. }
  intros ([] & w1 & Hstep & Hrest)%bind_inr.
  destruct (reachable_ok _ _ Hreach) as [Hc Hok].
  destruct (analyze_keeps_ok _ _ _ _ Hc Hok Hstep) as (_ & _ & <-).
  eapply IH; [|done]. by eapply reachable_analyze.
Qed.

(** How a call of [analyze_recursively] that returns went. *)
Lemma analyze_recursively_inv w0 b w' :
  analyze_recursively env w0 = (inr b, w') →
  let tgt := target (depenency_data w0) in
  ∃ w1, _analyze_package_dependencies env tgt w0 = (inr tt, w1)
    ∧ ((b = false ∧ safe_of (depenency_data w1) tgt = ∅ ∧ w' = w1)
       ∨ (b = true ∧ safe_of (depenency_data w1) tgt ≠ ∅
          ∧ ∃ w2, for_each (elements (safe_of (depenency_data w1) tgt))
                    (_analyze_package_dependencies env) w1 = (inr tt, w2)
                  ∧ drop_removed w2 = (inr tt, w'))).
Proof.
  unfold analyze_recursively. rewrite bind_get_data.
  intros ([] & w1 & Hstep & H)%bind_inr. exists w1. split; [done|].
  rewrite bind_get_data in H. fold (safe_of (depenency_data w1) (target (depenency_data w0))) in H.
  case_bool_decide as Hempty.
  - injection H as <- <-. by left.
  - apply bind_inr in H as ([] & w2 & Hall & H).
    apply bind_inr in H as ([] & w3 & Hdrop & H).
    injection H as <- <-. right. split_and!; try done. by exists w2.
Qed.


(** The invariant holds when [analyze_recursively] returns. *)
Lemma analyze_recursively_ok w0 b w' :
  reachable env w0 →
  analyze_recursively env w0 = (inr b, w') →
  data_ok env (depenency_data w')
  ∧ target (depenency_data w') = target (depenency_data w0).
Proof.
  intros Hreach (w1 & Hstep & Hcases)%analyze_recursively_inv.
  assert (reachable env w1) as Hreach1 by by eapply reachable_analyze.
  assert (target (depenency_data w1) = target (depenency_data w0)) as Ht1.
  { destruct (reachable_ok _ _ Hreach) as [Hc Hok].
    by destruct (analyze_keeps_ok _ _ _ _ Hc Hok Hstep) as (_ & _ & ?). }
  destruct Hcases as [(_ & _ & ->)|(_ & _ & w2 & Hall & Hdrop)].
  - split; [|done]. by apply reachable_ok.
  - pose proof (analyze_all_reachable _ _ _ Hreach1 Hall) as Hreach2.
    pose proof (analyze_all_target _ _ _ Hreach1 Hall) as Ht2.
    apply reachable_ok in Hreach2 as [_ Hok2].
    apply drop_removed_returns in Hdrop as (T' & -> & _).
    split; [exact Hok2|]. simpl_data. congruence.
Qed.

Lemma init_cases tgt aliases :
  __init__ env tgt aliases =
    match does_pkg_exists env tgt aliases with
    | (inr true, aliases') => (inr (DependencyData_new tgt), aliases')
    | (inr false, aliases') =>
        (inl (ValueError ("Package '" +:+ tgt +:+ "' not found")), aliases')
    | (inl e, aliases') => (inl e, aliases')
    end.
Proof.
  unfold __init__, bind.
  by destruct (does_pkg_exists env tgt aliases) as [[e|[]] aliases'].
Qed.

(** A target that [__init__] accepts is installed, and with a consistent
    index its first analysis returns. *)
Lemma analyze_target_returns tgt aliases data0 aliases0 :
  index_consistent env → aliases_ok env aliases →
  __init__ env tgt aliases = (inr data0, aliases0) →
  ∃ w1, _analyze_package_dependencies env tgt
          {| depenency_data := data0; alias_to_names := aliases0 |} = (inr tt, w1).
Proof.
  intros Hcons Hc. rewrite init_cases.
  destruct (does_pkg_exists env tgt aliases) as [[e|found] c'] eqn:Hex; [done|].
  apply does_pkg_exists_ok in Hex as [Hc' Hfound]; [|done].
  destruct found; [|done]. intros [= <- <-].
  apply analyze_returns; [done|done|]. by apply Hfound.
Qed.



Lemma elem_of_foldl_union (l : list (gset string)) : ∀ (acc : gset string) x,
  x ∈ foldl (λ uninstalled deps, uninstalled ∪ deps) acc l
  ↔ x ∈ acc ∨ ∃ deps, deps ∈ l ∧ x ∈ deps.
Proof.
  induction l as [|deps0 l IH]; intros acc x; simpl.
  - split; [by left|]. by intros [?|(? & []%elem_of_nil & _)].
  - rewrite IH, elem_of_union. split.
    + intros [[?|?]|(deps & ? & ?)]; [by left| |].
      * right. exists deps0. split; [by left|done].
      * right. exists deps. split; [by right|done].
    + intros [?|(deps & [->|?]%elem_of_cons & ?)]; [by left; left|by left; right|].
      right. by exists deps.
Qed.

(** What [_remove_packages] passes to [execpip]. *)
Lemma remove_packages_args quiet data :
  ∃ names : list string,
    _remove_packages quiet data =
      (["uninstall"; "--yes"] ++ (if quiet then ["--quiet"] else []) ++ names)%list
    ∧ NoDup names
    ∧ ∀ x, x ∈ names ↔
        x = target data ∨ ∃ p deps, safe_to_removed data !! p = Some deps ∧ x ∈ deps.
Proof.
  unfold _remove_packages.
  set (uninstalled := {[ target data ]} ∪ _).
  exists (elements uninstalled). split; [by destruct quiet|].
  split; [apply NoDup_elements|].
  intros x. rewrite elem_of_elements. subst uninstalled.
  rewrite elem_of_union, elem_of_singleton, elem_of_foldl_union, elem_of_empty.
  split.
  - intros [?|[[]|(deps & Hdeps & Hx)]]; [by left|]. right.
    apply list_elem_of_fmap in Hdeps as ([p deps'] & -> & Hp).
    apply elem_of_map_to_list in Hp. by exists p, deps'.
  - intros [?|(p & deps & Hp & Hx)]; [by left|]. right; right.
    exists deps. split; [|done].
    apply list_elem_of_fmap. exists (p, deps). split; [done|].
    by apply elem_of_map_to_list.
Qed.

(** C10. When [_main], run on a resolver in a reachable state, calls
    [execpip], the arguments are [uninstall --yes], then [--quiet] if asked
    for, then names without repetition: the target and the members of the
    sets of [safe_to_removed], whose keys are the analyzed packages.  The
    target is always among them. *)
Theorem uninstalled_is_safe_to_removed_and_target quiet yes answer w0 w' args :
  reachable env w0 →
  _main env quiet yes answer w0 = (inr (Some args), w') →
  ∃ names : list string,
    args = (["uninstall"; "--yes"] ++ (if quiet then ["--quiet"] else []) ++ names)%list
    ∧ NoDup names
    ∧ target (depenency_data w') ∈ names
    ∧ ∀ x, x ∈ names ↔
        x = target (depenency_data w')
        ∨ ∃ p, p ∈ analyzed_packages (depenency_data w')
               ∧ x ∈ safe_of (depenency_data w') p.
Proof.
  intros Hreach. unfold _main.
  intros (rv & w1 & Hrun & H)%bind_inr.
  destruct (analyze_recursively_ok _ _ _ Hreach Hrun) as [[Han Hnot] _].
  destruct rv; simpl in H; [|done].
  destruct (if quiet || yes then true else answer); [|done].
  rewrite bind_get_data in H. injection H as <- <-.
  destruct (remove_packages_args quiet (depenency_data w1))
    as (names & Hargs & Hnodup & Hnames).
  exists names. split_and!; try done.
  - apply Hnames. by left.
  - intros x. rewrite Hnames. unfold safe_of. split.
    + intros [?|(p & deps & Hp & Hx)]; [by left|]. right. exists p.
      rewrite Hp. split; [|done].
      destruct (decide (p ∈ analyzed_packages (depenency_data w1))) as [|Hno];
        [done|]. destruct (Hnot p Hno) as [Hnone _]. congruence.
    + intros [?|(p & Hp & Hx)]; [by left|]. right.
      destruct (safe_to_removed (depenency_data w1) !! p) as [deps|] eqn:Hdeps.
      * by exists p, deps.
      * simpl in Hx. by apply elem_of_empty in Hx.
Qed.

End Orchestration.

(** ** The statements on concrete installed sets *)

Section Concrete.

Lemma new_resolver_reachable env tgt : reachable env (new_resolver tgt ∅).
Proof. apply reachable_new, aliases_ok_empty. Qed.

(** The two scenarios of the specification. *)
Example chain_scenario :
  (analyze_recursively chain_env (new_resolver "A" ∅)).1 = inr true
  ∧ safe_of (depenency_data (before_drop chain_env "A")) "A" = {[ "B" ]}
  ∧ safe_of (depenency_data (before_drop chain_env "A")) "B" = {[ "C" ]}
  ∧ this_requires_by (depenency_data (before_drop chain_env "A")) = ∅.
Proof. split_and!; by vm_compute. Qed.

Example shared_scenario :
  (analyze_recursively shared_env (new_resolver "A" ∅)).1 = inr false
  ∧ required_by_of (depenency_data (after_analyze shared_env "A")) "A" "B" = {[ "D" ]}
  ∧ safe_of (depenency_data (after_analyze shared_env "A")) "A" = ∅.
Proof. split_and!; by vm_compute. Qed.

Lemma analyze_skips_protected_and_analyzed_witness :
  ("pip" ∈ WHITELIST
   ∨ "pip" ∈ analyzed_packages (depenency_data (new_resolver "A" ∅)))
  ∧ _analyze_package_dependencies chain_env "pip" (new_resolver "A" ∅)
      = (inr tt, new_resolver "A" ∅).
Proof.
  assert ("pip" ∈ WHITELIST
          ∨ "pip" ∈ analyzed_packages (depenency_data (new_resolver "A" ∅))) as H.
  { left. vm_compute. reflexivity. }
  split; [exact H|].
  exact (analyze_skips_protected_and_analyzed chain_env "pip" (new_resolver "A" ∅) H).
Defined.

Lemma classification_is_a_partition_witness :
  _analyze_package_dependencies mixed_env "A" (new_resolver "A" ∅)
    = (inr tt, after_analyze mixed_env "A")
  ∧ "A" ∈ analyzed_packages (depenency_data (after_analyze mixed_env "A"))
  ∧ distributions mixed_env !! "A" = Some ["pip"; "ghost"; "B"; "C"]
  ∧ "C" ∈ ["pip"; "ghost"; "B"; "C"]
  ∧ exactly_one
      (("A", "C") ∈ whitelisted (depenency_data (after_analyze mixed_env "A")))
      (("A", "C") ∈ never_installed (depenency_data (after_analyze mixed_env "A")))
      ("C" ∈ safe_of (depenency_data (after_analyze mixed_env "A")) "A")
      ("C" ∈ required_keys (depenency_data (after_analyze mixed_env "A")) "A").
Proof.
  assert (_analyze_package_dependencies mixed_env "A" (new_resolver "A" ∅)
            = (inr tt, after_analyze mixed_env "A")) as Hrun
    by (vm_compute; reflexivity).
  assert ("A" ∈ analyzed_packages (depenency_data (after_analyze mixed_env "A")))
    as Hp by (vm_compute; reflexivity).
  assert (distributions mixed_env !! "A" = Some ["pip"; "ghost"; "B"; "C"])
    as Hreqs by (vm_compute; reflexivity).
  assert ("C" ∈ ["pip"; "ghost"; "B"; "C"]) as Hd
    by (apply (bool_decide_unpack _); vm_compute; exact I).
  split; [exact Hrun|]. split; [exact Hp|]. split; [exact Hreqs|].
  split; [exact Hd|].
  exact (classification_is_a_partition mixed_env "A" _ _ "A" _ "C"
           (new_resolver_reachable mixed_env "A") Hrun Hp Hreqs Hd).
Defined.

Lemma unshared_requirement_is_safe_witness :
  _analyze_package_dependencies chain_env "A" (new_resolver "A" ∅)
    = (inr tt, after_analyze chain_env "A")
  ∧ installed chain_env "B"
  ∧ ("B" ∉ WHITELIST)
  ∧ map_Forall (λ q reqs_q, "B" ∈ reqs_q → q = "A") (distributions chain_env)
  ∧ "B" ∈ safe_of (depenency_data (after_analyze chain_env "A")) "A".
Proof.
  assert (_analyze_package_dependencies chain_env "A" (new_resolver "A" ∅)
            = (inr tt, after_analyze chain_env "A")) as Hrun
    by (vm_compute; reflexivity).
  assert ("A" ∈ analyzed_packages (depenency_data (after_analyze chain_env "A")))
    as Hp by (vm_compute; reflexivity).
  assert (distributions chain_env !! "A" = Some ["B"]) as Hreqs
    by (vm_compute; reflexivity).
  assert ("B" ∈ ["B"]) as Hd by (apply (bool_decide_unpack _); vm_compute; exact I).
  assert (installed chain_env "B") as Hin
    by (apply (bool_decide_unpack _); vm_compute; exact I).
  assert ("B" ∉ WHITELIST) as Hw
    by (apply (bool_decide_unpack _); vm_compute; exact I).
  assert (map_Forall (λ q reqs_q, "B" ∈ reqs_q → q = "A") (distributions chain_env))
    as Honly by (apply (bool_decide_unpack _); vm_compute; exact I).
  split; [exact Hrun|]. split; [exact Hin|]. split; [exact Hw|].
  split; [exact Honly|].
  exact (unshared_requirement_is_safe chain_env "A" _ _ "A" _ "B"
           (new_resolver_reachable chain_env "A") Hrun Hp Hreqs Hd Hin Hw Honly).
Defined.

(** C2 as the specification states it fails: in [diamond_env], [B] requires
    [C], is installed, is not [A], not in the whitelist and not the target,
    yet [C] is in [safe_to_removed["A"]], because [B] is itself a
    requirement of [A] (line 273). *)
Lemma required_elsewhere_by_own_requirement :
  _analyze_package_dependencies diamond_env "A" (new_resolver "A" ∅)
    = (inr tt, after_analyze diamond_env "A")
  ∧ "A" ∈ analyzed_packages (depenency_data (after_analyze diamond_env "A"))
  ∧ distributions diamond_env !! "A" = Some ["B"; "C"]
  ∧ "C" ∈ ["B"; "C"]
  ∧ installed diamond_env "C"
  ∧ ("C" ∉ WHITELIST)
  ∧ distributions diamond_env !! "B" = Some ["C"]
  ∧ "C" ∈ ["C"]
  ∧ "B" ≠ "A"
  ∧ ("B" ∉ WHITELIST)
  ∧ "B" ≠ target (depenency_data (after_analyze diamond_env "A"))
  ∧ ¬ (("C" ∉ safe_of (depenency_data (after_analyze diamond_env "A")) "A")
       ∧ "B" ∈ required_by_of (depenency_data (after_analyze diamond_env "A")) "A" "C").
Proof.
  split; [vm_compute; reflexivity|].
  split_and!; apply (bool_decide_unpack _); vm_compute; exact I.
Qed.

Lemma shared_requirement_is_kept_witness :
  _analyze_package_dependencies shared_env "A" (new_resolver "A" ∅)
    = (inr tt, after_analyze shared_env "A")
  ∧ installed shared_env "B"
  ∧ distributions shared_env !! "D" = Some ["B"]
  ∧ ("B" ∉ safe_of (depenency_data (after_analyze shared_env "A")) "A")
  ∧ "D" ∈ required_by_of (depenency_data (after_analyze shared_env "A")) "A" "B".
Proof.
  assert (_analyze_package_dependencies shared_env "A" (new_resolver "A" ∅)
            = (inr tt, after_analyze shared_env "A")) as Hrun
    by (vm_compute; reflexivity).
  assert ("A" ∈ analyzed_packages (depenency_data (after_analyze shared_env "A")))
    as Hp by (vm_compute; reflexivity).
  assert (distributions shared_env !! "A" = Some ["B"]) as Hreqs
    by (vm_compute; reflexivity).
  assert ("B" ∈ ["B"]) as Hd by (apply (bool_decide_unpack _); vm_compute; exact I).
  assert (installed shared_env "B") as Hin
    by (apply (bool_decide_unpack _); vm_compute; exact I).
  assert ("B" ∉ WHITELIST) as Hw
    by (apply (bool_decide_unpack _); vm_compute; exact I).
  assert (distributions shared_env !! "D" = Some ["B"]) as Hq
    by (vm_compute; reflexivity).
  assert ("D" ≠ "A") as Hne by discriminate.
  assert ("D" ∉ WHITELIST) as Hqw
    by (apply (bool_decide_unpack _); vm_compute; exact I).
  assert ("D" ≠ target (depenency_data (after_analyze shared_env "A"))) as Hqt
    by (apply (bool_decide_unpack _); vm_compute; exact I).
  assert ("D" ∉ ["B"]) as Hqr
    by (apply (bool_decide_unpack _); vm_compute; exact I).
  split; [exact Hrun|]. split; [exact Hin|]. split; [exact Hq|].
  exact (shared_requirement_is_kept shared_env "A" _ _ "A" _ "B" "D" _
           (new_resolver_reachable shared_env "A") Hrun Hp Hreqs Hd Hin Hw
           Hq Hd Hne Hqw Hqt Hqr).
Defined.




Lemma drop_removed_drops_witness :
  drop_removed (before_drop mutual_env "A")
    = (inr tt, (drop_removed (before_drop mutual_env "A")).2)
  ∧ "B" ∈ this_requires_by (depenency_data (before_drop mutual_env "A"))
  ∧ safe_to_removed (depenency_data (before_drop mutual_env "A")) !! "A"
      = Some {[ "B" ]}
  ∧ "B" ∈ ({[ "B" ]} : gset string)
  ∧ "B" ∉ this_requires_by
            (depenency_data (drop_removed (before_drop mutual_env "A")).2).
Proof.
  assert (drop_removed (before_drop mutual_env "A")
            = (inr tt, (drop_removed (before_drop mutual_env "A")).2)) as Hrun
    by (vm_compute; reflexivity).
  assert ("B" ∈ this_requires_by (depenency_data (before_drop mutual_env "A")))
    as Hi by (vm_compute; reflexivity).
  assert (safe_to_removed (depenency_data (before_drop mutual_env "A")) !! "A"
            = Some {[ "B" ]}) as Hm by (vm_compute; reflexivity).
  assert ("B" ∈ ({[ "B" ]} : gset string)) as Hdeps by (vm_compute; reflexivity).
  split; [exact Hrun|]. split; [exact Hi|]. split; [exact Hm|].
  split; [exact Hdeps|].
  exact (drop_removed_drops _ _ "B" "A" _ Hrun Hi Hm Hdeps).
Defined.

Lemma uninstalled_is_safe_to_removed_and_target_witness :
  _main chain_env false true false (new_resolver "A" ∅)
    = (inr (Some ["uninstall"; "--yes"; "C"; "A"; "B"]),
       (_main chain_env false true false (new_resolver "A" ∅)).2)
  ∧ ∃ names : list string,
      ["uninstall"; "--yes"; "C"; "A"; "B"]
        = (["uninstall"; "--yes"] ++ [] ++ names)%list
      ∧ NoDup names
      ∧ target (depenency_data
                  (_main chain_env false true false (new_resolver "A" ∅)).2) ∈ names
      ∧ ∀ x, x ∈ names ↔
          x = target (depenency_data
                        (_main chain_env false true false (new_resolver "A" ∅)).2)
          ∨ ∃ p, p ∈ analyzed_packages
                       (depenency_data
                          (_main chain_env false true false (new_resolver "A" ∅)).2)
                 ∧ x ∈ safe_of
                         (depenency_data
                            (_main chain_env false true false (new_resolver "A" ∅)).2) p.
Proof.
  assert (_main chain_env false true false (new_resolver "A" ∅)
            = (inr (Some ["uninstall"; "--yes"; "C"; "A"; "B"]),
               (_main chain_env false true false (new_resolver "A" ∅)).2)) as Hrun
    by (vm_compute; reflexivity).
  split; [exact Hrun|].
  exact (uninstalled_is_safe_to_removed_and_target chain_env false true false _ _ _
           (new_resolver_reachable chain_env "A") Hrun).
Defined.

(** C8. The whitelist has [pip], [attrs], [click] and [packaging], but
    neither [more-itertools], which it spells [more-iterools], nor
    [typing-extensions], two packages the module imports. *)
Theorem whitelist_misses_own_requirements :
  "pip" ∈ WHITELIST ∧ "attrs" ∈ WHITELIST ∧ "click" ∈ WHITELIST
  ∧ "packaging" ∈ WHITELIST
  ∧ "more-iterools" ∈ WHITELIST
  ∧ ("more-itertools" ∉ WHITELIST)
  ∧ "typing-extensions" ∉ WHITELIST.
Proof. split_and!; apply (bool_decide_unpack _); vm_compute; exact I. Qed.

(** So [more-itertools] can be proposed for removal and uninstalled. *)
Example more_itertools_is_uninstalled :
  (_main itertools_env false true false (new_resolver "foo" ∅)).1
    = inr (Some ["uninstall"; "--yes"; "more-itertools"; "foo"]).
Proof. by vm_compute. Qed.

(** C9. In [cycle_env], after the two levels of analysis [C] is in
    [this_requires_by] and in the sets of [safe_to_removed] of both [A] and
    [B]; the pass of lines 307-314 removes it twice, and the second
    [remove] raises [KeyError]. *)
Theorem drop_removed_raises_KeyError :
  "C" ∈ this_requires_by (depenency_data (before_drop cycle_env "A"))
  ∧ "C" ∈ safe_of (depenency_data (before_drop cycle_env "A")) "A"
  ∧ "C" ∈ safe_of (depenency_data (before_drop cycle_env "A")) "B"
  ∧ (drop_removed (before_drop cycle_env "A")).1 = inl (KeyError "C")
  ∧ (analyze_recursively cycle_env (new_resolver "A" ∅)).1 = inl (KeyError "C").
Proof. split_and!; by vm_compute. Qed.

(** A target given under another spelling than the one it is installed
    under: the sets are filled for [Foo], [safe_to_removed.get("foo", set())]
    is empty, and [analyze_recursively] returns [False]. *)
Example alias_target_scenario :
  (__init__ alias_env "foo" ∅).1 = inr (DependencyData_new "foo")
  ∧ (analyze_recursively alias_env
       {| depenency_data := DependencyData_new "foo";
          alias_to_names := (__init__ alias_env "foo" ∅).2 |}).1 = inr false
  ∧ safe_of (depenency_data
       (analyze_recursively alias_env
          {| depenency_data := DependencyData_new "foo";
             alias_to_names := (__init__ alias_env "foo" ∅).2 |}).2) "foo" = ∅
  ∧ safe_of (depenency_data
       (analyze_recursively alias_env
          {| depenency_data := DependencyData_new "foo";
             alias_to_names := (__init__ alias_env "foo" ∅).2 |}).2) "Foo" = {[ "bar" ]}.
Proof. split_and!; by vm_compute. Qed.

(** In [mutual_env] the target [A] is itself in [safe_to_removed["B"]]. *)
Example target_in_safe_to_removed :
  (analyze_recursively mutual_env (new_resolver "A" ∅)).1 = inr true
  ∧ "A" ∈ safe_of (depenency_data (before_drop mutual_env "A")) "B".
Proof. split; by vm_compute. Qed.

End Concrete.

(** ** More on [get_distribution] and [does_pkg_exists] *)

Section IndexMore.

Context (env : Installed).

(** X1. [does_pkg_exists] answers [False] exactly for a name that is no key of
    the dict, has no entry in [__alias_to_names] and is not found by
    [importlib.metadata]; it then leaves [__alias_to_names] as it was. *)
Theorem does_pkg_exists_false_iff pkg c c' :
  does_pkg_exists env pkg c = (inr false, c')
  ↔ c' = c ∧ distributions env !! pkg = None ∧ c !! pkg = None
    ∧ distribution env pkg = None.
Proof.
  rewrite does_pkg_exists_cases, get_distribution_cases.
  destruct (distributions env !! pkg) as [reqs|]; [naive_solver|].
  destruct (c !! pkg) as [d|].
  { destruct (distributions env !! d); naive_solver. }
  destruct (distribution env pkg); naive_solver.
Qed.


(** X3. [get_distribution] only adds to [__alias_to_names]: what was there
    stays, and a new entry is for the name asked, which was no key of the
    dict, with the name [importlib.metadata] answered. *)
Theorem get_distribution_cache_grows name c r c' :
  get_distribution env name c = (r, c') →
  c ⊆ c'
  ∧ ∀ n d, c' !! n = Some d →
      c !! n = Some d
      ∨ (n = name ∧ c !! name = None ∧ distributions env !! name = None
         ∧ distribution env name = Some d).
Proof.
  rewrite get_distribution_cases.
  destruct (distributions env !! name) as [reqs|] eqn:Hn.
  { intros [= <- <-]. split; [done|]. by left. }
  destruct (c !! name) as [d0|] eqn:Hc.
  { destruct (distributions env !! d0); intros [= <- <-]; (split; [done|]);
      by left. }
  destruct (distribution env name) as [d0|] eqn:Hd; intros [= <- <-].
  - split; [by apply insert_subseteq|].
    intros n d. rewrite lookup_insert. case_decide as Heq; [|by left].
    intros [= <-]. subst n. by right.
  - split; [done|]. by left.
Qed.

(** X4. A second [get_distribution] of the same name gives the same name and no
    longer changes [__alias_to_names], if the name found is a key of the
    dict; if it is not, the second call raises [KeyError] where the first
    returned. *)
Theorem get_distribution_again name c d c' :
  get_distribution env name c = (inr d, c') →
  get_distribution env name c' =
    match distributions env !! d with
    | Some _ => (inr d, c')
    | None => (inl (KeyError d), c')
    end.
Proof.
  rewrite !get_distribution_cases.
  destruct (distributions env !! name) as [reqs|] eqn:Hn.
  { intros [= <- <-]. by rewrite Hn. }
  destruct (c !! name) as [d0|] eqn:Hc.
  { destruct (distributions env !! d0) eqn:Hd0; intros [= <- <-].
    by rewrite Hc, Hd0. }
  destruct (distribution env name) as [d0|] eqn:Hd; intros [= <- <-].
  by rewrite lookup_insert_eq.
Qed.


End IndexMore.

(** ** More on [_analyze_package_dependencies] *)

Section AnalyzeMore.

Context (env : Installed).

Implicit Types (w : World) (data : DependencyData).

(** X6. Analyzing the target, given under the name it is a key of the dict
    under, on a new resolver fills [this_requires_by] with exactly the keys
    of the dict whose requirements name the target, the target itself and
    the whitelisted ones left out. *)
Theorem analyze_target_fills_this_requires_by tgt aliases reqs w' q :
  aliases_ok env aliases →
  distributions env !! tgt = Some reqs →
  tgt ∉ WHITELIST →
  _analyze_package_dependencies env tgt (new_resolver tgt aliases) = (inr tt, w') →
  q ∈ this_requires_by (depenency_data w')
  ↔ ∃ reqs_q, distributions env !! q = Some reqs_q ∧ tgt ∈ reqs_q
              ∧ q ≠ tgt ∧ q ∉ WHITELIST.
Proof.
  intros Hc Hreqs Hw Hrun.
  apply analyze_ok in Hrun; [|done|done|apply not_elem_of_empty].
  destruct Hrun as (p & reqs' & V & NI & WL & T & deps' & Hp & _ & _ & _
                    & _ & _ & HT & _ & _ & ->).
  unfold installed_as in Hp. rewrite Hreqs in Hp. injection Hp as <-.
  simpl. rewrite HT. simpl. rewrite elem_of_empty. unfold requires_this.
  naive_solver.
Qed.

(** A call for a package under a name [importlib.metadata] resolves to a key
    other than the target leaves [this_requires_by] as it was; so it does for
    every call when the target is no key of the dict. *)
Lemma analyze_keeps_this_requires_by package w w' :
  aliases_ok env (alias_to_names w) →
  installed_as env package ≠ Some (target (depenency_data w)) →
  _analyze_package_dependencies env package w = (inr tt, w') →
  this_requires_by (depenency_data w') = this_requires_by (depenency_data w).
Proof.
  intros Hc Hother Hrun.
  destruct (decide (package ∈ WHITELIST
                    ∨ package ∈ analyzed_packages (depenency_data w))) as [Hskip|Hgo].
  { rewrite analyze_skip in Hrun by done. by injection Hrun as <-. }
  apply analyze_ok in Hrun; [|done|tauto|tauto].
  destruct Hrun as (p & reqs & V & NI & WL & T & deps' & Hp & _ & _ & _
                    & _ & _ & HT & _ & _ & ->).
  simpl. apply set_eq. intros q. rewrite HT. split; [|by left].
  intros [?|[-> _]]; [done|]. by rewrite Hp in Hother.
Qed.

(** X7. What a call never undoes: the target is kept, the sets [whitelisted],
    [never_installed], [this_requires_by] and [analyzed_packages] only grow,
    and the entries of [safe_to_removed] and
    [package_depenencies_required_by] for every package other than the one
    analyzed are kept. *)
Theorem analyze_only_adds package w w' :
  aliases_ok env (alias_to_names w) →
  _analyze_package_dependencies env package w = (inr tt, w') →
  target (depenency_data w') = target (depenency_data w)
  ∧ whitelisted (depenency_data w) ⊆ whitelisted (depenency_data w')
  ∧ never_installed (depenency_data w) ⊆ never_installed (depenency_data w')
  ∧ this_requires_by (depenency_data w) ⊆ this_requires_by (depenency_data w')
  ∧ analyzed_packages (depenency_data w) ⊆ analyzed_packages (depenency_data w')
  ∧ ∀ p', installed_as env package ≠ Some p' →
      safe_to_removed (depenency_data w') !! p'
        = safe_to_removed (depenency_data w) !! p'
      ∧ package_depenencies_required_by (depenency_data w') !! p'
        = package_depenencies_required_by (depenency_data w) !! p'.
Proof.
  intros Hc Hrun.
  destruct (decide (package ∈ WHITELIST
                    ∨ package ∈ analyzed_packages (depenency_data w))) as [Hskip|Hgo].
  { rewrite analyze_skip in Hrun by done. by injection Hrun as <-. }
  apply analyze_ok in Hrun; [|done|tauto|tauto].
  destruct Hrun as (p & reqs & V & NI & WL & T & deps' & Hp & _ & _ & _
                    & HNI & HWL & HT & _ & _ & ->).
  simpl. split_and!; try done.
  - intros x Hx. apply HWL. by left.
  - intros x Hx. apply HNI. by left.
  - intros x Hx. apply HT. by left.
  - apply union_subseteq_r.
  - intros p' Hp'. assert (p ≠ p') by congruence.
    by rewrite !lookup_insert_ne.
Qed.

(** X8. Once a call for a key of the dict has returned, a second call for it
    changes nothing. *)
Theorem analyze_twice package w w' :
  aliases_ok env (alias_to_names w) →
  is_Some (distributions env !! package) →
  _analyze_package_dependencies env package w = (inr tt, w') →
  _analyze_package_dependencies env package w' = (inr tt, w').
Proof.
  intros Hc [reqs Hreqs] Hrun. apply analyze_skip.
  destruct (decide (package ∈ WHITELIST
                    ∨ package ∈ analyzed_packages (depenency_data w))) as [Hskip|Hgo].
  { rewrite analyze_skip in Hrun by done. by injection Hrun as <-. }
  apply analyze_ok in Hrun; [|done|tauto|tauto].
  destruct Hrun as (p & reqs' & V & NI & WL & T & deps' & Hp & _ & _ & _
                    & _ & _ & _ & _ & _ & ->).
  unfold installed_as in Hp. rewrite Hreqs in Hp. injection Hp as <-.
  right. simpl. apply elem_of_union_l. by apply elem_of_singleton.
Qed.

(** X9. A call for a package that is not installed (and is neither whitelisted
    nor analyzed) raises [importlib.metadata]'s [PackageNotFoundError] and
    changes nothing. *)
Theorem analyze_missing_package package w :
  package ∉ WHITELIST →
  package ∉ analyzed_packages (depenency_data w) →
  distributions env !! package = None →
  alias_to_names w !! package = None →
  distribution env package = None →
  _analyze_package_dependencies env package w
    = (inl (PackageNotFoundError package), w).
Proof.
  intros Hw Han Hkey Hcache Hdist. unfold _analyze_package_dependencies.
  rewrite bind_get_data, bool_decide_eq_false_2 by tauto.
  apply bind_raise. unfold pull_requirements, package_to_requirements.
  rewrite Hkey. apply bind_raise. unfold with_aliases.
  rewrite get_distribution_cases, Hkey, Hcache, Hdist. by destruct w.
Qed.

(** X10. In a reachable state the keys of [safe_to_removed] and of
    [package_depenencies_required_by] are the analyzed packages, each of
    them a key of the dict, and the pairs of [whitelisted] and
    [never_installed] belong to analyzed packages. *)
Theorem reachable_keys w :
  reachable env w →
  dom (safe_to_removed (depenency_data w)) = analyzed_packages (depenency_data w)
  ∧ dom (package_depenencies_required_by (depenency_data w))
      = analyzed_packages (depenency_data w)
  ∧ analyzed_packages (depenency_data w) ⊆ dom (distributions env)
  ∧ ∀ p d, (p, d) ∈ whitelisted (depenency_data w)
            ∨ (p, d) ∈ never_installed (depenency_data w) →
           p ∈ analyzed_packages (depenency_data w).
Proof.
  intros [_ [Han Hnot]]%reachable_ok.
  assert (∀ p, p ∈ analyzed_packages (depenency_data w) →
            is_Some (safe_to_removed (depenency_data w) !! p)
            ∧ is_Some (package_depenencies_required_by (depenency_data w) !! p)
            ∧ is_Some (distributions env !! p)) as Hyes.
  { intros p (reqs & S & deps & -> & -> & -> & _)%Han. eauto. }
  split_and!.
  - apply set_eq. intros p. rewrite elem_of_dom.
    split; [|by intros (? & _)%Hyes].
    intros [S HS]. destruct (decide (p ∈ analyzed_packages (depenency_data w)))
      as [|Hno]; [done|]. destruct (Hnot p Hno) as (? & _). congruence.
  - apply set_eq. intros p. rewrite elem_of_dom. split; [|by intros (_ & ? & _)%Hyes].
    intros [S HS]. destruct (decide (p ∈ analyzed_packages (depenency_data w)))
      as [|Hno]; [done|]. destruct (Hnot p Hno) as (_ & ? & _). congruence.
  - intros p (_ & _ & ?)%Hyes. by apply elem_of_dom.
  - intros p d Hpair.
    destruct (decide (p ∈ analyzed_packages (depenency_data w))) as [|Hno]; [done|].
    destruct (Hnot p Hno) as (_ & _ & Hpairs). destruct (Hpairs d). tauto.
Qed.

(** X11. In a reachable state a member [d] of [safe_to_removed[p]] is a
    requirement of [p] that is installed and not whitelisted, and every key
    of the dict that requires [d] is [p], a requirement of [p], a
    whitelisted package or the target. *)
Theorem safe_to_removed_sound w p d :
  reachable env w →
  d ∈ safe_of (depenency_data w) p →
  ∃ reqs, distributions env !! p = Some reqs
    ∧ d ∈ reqs ∧ installed env d ∧ (d ∉ WHITELIST)
    ∧ ∀ q reqs_q, distributions env !! q = Some reqs_q → d ∈ reqs_q →
        q = p ∨ q ∈ reqs ∨ q ∈ WHITELIST ∨ q = target (depenency_data w).
Proof.
  intros [_ [Han Hnot]]%reachable_ok Hd. unfold safe_of in Hd.
  destruct (decide (p ∈ analyzed_packages (depenency_data w))) as [Hp|Hno].
  2: { destruct (Hnot p Hno) as (HS & _). rewrite HS in Hd.
       by apply elem_of_empty in Hd. }
  destruct (Han p Hp) as (reqs & S & deps & Hreqs & HS & _ & _ & _ & _ & _ & Hsafe).
  rewrite HS in Hd. simpl in Hd. apply Hsafe in Hd as [(Hdr & Hin & Hw) Hnone].
  exists reqs. split_and!; try done.
  intros q reqs_q Hq Hdq.
  destruct (decide (q = p)) as [|Hne]; [by left|].
  destruct (decide (q ∈ reqs)) as [|Hnr]; [by right; left|].
  destruct (decide (q ∈ WHITELIST)) as [|Hqw]; [by right; right; left|].
  destruct (decide (q = target (depenency_data w))) as [|Hqt];
    [by right; right; right|].
  exfalso. apply Hnone. exists q, reqs_q. split_and!; try done. by intros [? _].
Qed.

(** X12. In a reachable state a member [q] of
    [package_depenencies_required_by[p][d]] is a key of the dict that
    requires [d], is not [p], not whitelisted, not the target and not an
    installed, unprotected requirement of [p]; [d] is such a requirement;
    and no entry of [package_depenencies_required_by[p]] is an empty set. *)
Theorem required_by_sound w p :
  reachable env w →
  (∀ d q, q ∈ required_by_of (depenency_data w) p d →
     ∃ reqs reqs_q,
       distributions env !! p = Some reqs ∧ d ∈ reqs ∧ installed env d
       ∧ (d ∉ WHITELIST)
       ∧ distributions env !! q = Some reqs_q ∧ d ∈ reqs_q
       ∧ q ≠ p ∧ (q ∉ WHITELIST) ∧ q ≠ target (depenency_data w)
       ∧ ¬ (q ∈ reqs ∧ installed env q))
  ∧ (∀ d, d ∈ required_keys (depenency_data w) p →
       ∃ q, q ∈ required_by_of (depenency_data w) p d).
Proof.
  intros [_ [Han Hnot]]%reachable_ok. unfold required_by_of, required_keys.
  destruct (decide (p ∈ analyzed_packages (depenency_data w))) as [Hp|Hno].
  2: { destruct (Hnot p Hno) as (_ & -> & _). simpl. split.
       - intros d q. rewrite lookup_empty. simpl. by rewrite elem_of_empty.
       - intros d. by rewrite dom_empty_L, elem_of_empty. }
  destruct (Han p Hp) as (reqs & S & deps & Hreqs & _ & -> & _ & _ & Hby & Hdom & _).
  simpl. split.
  - intros d q [(Hdr & Hin & Hw) (reqs_q & Hq & Hdq & Hne & Hnv & Hqw & Hqt)]%Hby.
    exists reqs, reqs_q. split_and!; try done.
    intros [Hqr Hqi]. apply Hnv. by split.
  - intros d [Hv [q Hq]]%elem_of_dom%Hdom. exists q. by apply Hby.
Qed.

End AnalyzeMore.

(** ** More on the pass of lines 307-314 *)

Section DropRemovedMore.

Implicit Types (w : World) (data : DependencyData).

Lemma drop_inner_no_hit i items : ∀ w,
  (∀ mdep mdep_deps, (mdep, mdep_deps) ∈ items → i ∉ mdep_deps) →
  for_each items (drop_if_removed i) w = (inr tt, w).
Proof.
  induction items as [|[mdep0 deps0] items IH]; intros w Hno; cbn [for_each];
    [done|].
  unfold bind at 1. rewrite drop_if_removed_eq.
  rewrite bool_decide_eq_false_2 by (apply (Hno mdep0); by left).
  apply IH. intros m d Hm. apply (Hno m). by right.
Qed.

Lemma drop_inner_one_hit i items : ∀ w,
  NoDup (items.*1) →
  (∀ m1 d1 m2 d2, (m1, d1) ∈ items → (m2, d2) ∈ items →
     i ∈ d1 → i ∈ d2 → m1 = m2) →
  (∃ mdep mdep_deps, (mdep, mdep_deps) ∈ items ∧ i ∈ mdep_deps) →
  i ∈ this_requires_by (depenency_data w) →
  for_each items (drop_if_removed i) w
    = (inr tt, map_data (upd_this_requires_by (λ s, s ∖ {[ i ]})) w).
Proof.
  induction items as [|[mdep0 deps0] items IH]; intros w Hnd Huniq Hhit Hi.
  { destruct Hhit as (? & ? & []%elem_of_nil & _). }
  cbn [for_each]. unfold bind at 1. rewrite drop_if_removed_eq.
  apply NoDup_cons in Hnd as [Hfresh Hnd]. case_bool_decide as Hi0.
  - rewrite bool_decide_eq_true_2 by done. apply drop_inner_no_hit.
    intros m d Hm Hd. apply Hfresh.
    assert (mdep0 = m) as ->.
    { apply (Huniq mdep0 deps0 m d); [by left|by right|done|done]. }
    apply list_elem_of_fmap. by exists (m, d).
  - apply IH; try done.
    + intros m1 d1 m2 d2 H1 H2. apply Huniq; by right.
    + destruct Hhit as (m & d & [[= -> ->]|Hm]%elem_of_cons & Hd); [done|eauto].
Qed.

Lemma drop_outer_exact is_ : ∀ w,
  NoDup is_ →
  (∀ i, i ∈ is_ → i ∈ this_requires_by (depenency_data w)) →
  (∀ i m1 d1 m2 d2, i ∈ is_ →
     safe_to_removed (depenency_data w) !! m1 = Some d1 →
     safe_to_removed (depenency_data w) !! m2 = Some d2 →
     i ∈ d1 → i ∈ d2 → m1 = m2) →
  ∃ T' : gset string,
    for_each is_ (λ i,
      do data <- get_data;
      for_each (map_to_list (safe_to_removed data)) (drop_if_removed i)) w
      = (inr tt, map_data (upd_this_requires_by (λ _, T')) w)
    ∧ ∀ j, j ∈ T' ↔
        j ∈ this_requires_by (depenency_data w)
        ∧ ¬ (j ∈ is_ ∧ ∃ m d, safe_to_removed (depenency_data w) !! m = Some d
                               ∧ j ∈ d).
Proof.
  induction is_ as [|i0 is_ IH]; intros w Hnd Hin Huniq; cbn [for_each].
  { exists (this_requires_by (depenency_data w)). split; [by destruct w as [[] ?]|].
    intros j. split; [|tauto]. intros Hj. split; [done|].
    by intros [?%elem_of_nil _]. }
  apply NoDup_cons in Hnd as [Hfresh Hnd].
  unfold bind at 1. rewrite bind_get_data.
  destruct (decide (Exists (λ it, i0 ∈ it.2)
                      (map_to_list (safe_to_removed (depenency_data w)))))
    as [Hhit|Hno].
  - apply Exists_exists in Hhit as ([m0 d0] & Hm0 & Hd0). simpl in Hd0.
    rewrite drop_inner_one_hit; first last.
    { apply Hin. by left. }
    { by exists m0, d0. }
    { intros m1 d1 m2 d2 H1%elem_of_map_to_list H2%elem_of_map_to_list.
      apply Huniq; [by left|done|done]. }
    { apply NoDup_fst_map_to_list. }
    set (w1 := map_data (upd_this_requires_by (λ s, s ∖ {[ i0 ]})) w).
    assert (∀ i, i ∈ is_ → i ∈ this_requires_by (depenency_data w1)) as Hin1.
    { intros i Hi. subst w1. simpl_data. apply elem_of_difference. split.
      - apply Hin. by right.
      - intros ->%elem_of_singleton. done. }
    assert (∀ i m1 d1 m2 d2, i ∈ is_ →
              safe_to_removed (depenency_data w1) !! m1 = Some d1 →
              safe_to_removed (depenency_data w1) !! m2 = Some d2 →
              i ∈ d1 → i ∈ d2 → m1 = m2) as Huniq1.
    { intros i m1 d1 m2 d2 Hi. apply Huniq. by right. }
    destruct (IH w1 Hnd Hin1 Huniq1) as (T' & -> & HT'). subst w1.
    exists T'. split; [reflexivity|]. intros j. rewrite HT'. simpl_data.
    rewrite elem_of_difference, elem_of_singleton, elem_of_cons.
    apply elem_of_map_to_list in Hm0. split.
    + intros [[Hj Hne] Hrest]. split; [done|]. intros [[->|Hj'] Hhit]; tauto.
    + intros [Hj Hrest]. split_and!; [done| |tauto].
      intros ->. apply Hrest. split; [by left|eauto].
  - rewrite drop_inner_no_hit; first last.
    { intros m d Hm Hd. apply Hno, Exists_exists. by exists (m, d). }
    assert (∀ i, i ∈ is_ → i ∈ this_requires_by (depenency_data w)) as Hin1.
    { intros i Hi. apply Hin. by right. }
    assert (∀ i m1 d1 m2 d2, i ∈ is_ →
              safe_to_removed (depenency_data w) !! m1 = Some d1 →
              safe_to_removed (depenency_data w) !! m2 = Some d2 →
              i ∈ d1 → i ∈ d2 → m1 = m2) as Huniq1.
    { intros i m1 d1 m2 d2 Hi. apply Huniq. by right. }
    destruct (IH w Hnd Hin1 Huniq1) as (T' & -> & HT').
    exists T'. split; [done|]. intros j. rewrite HT', elem_of_cons.
    split; [|tauto]. intros [Hj Hrest]. split; [done|].
    intros [[->|Hj'] (m & d & Hm & Hd)];
      [|apply Hrest; split; [done|by exists m, d]].
    apply Hno, Exists_exists. exists (m, d). split; [|done].
    by apply elem_of_map_to_list.
Qed.

Lemma drop_outer_raises_only is_ : ∀ w e w',
  for_each is_ (λ i,
    do data <- get_data;
    for_each (map_to_list (safe_to_removed data)) (drop_if_removed i)) w
    = (inl e, w') →
  ∃ j, e = KeyError j.
Proof.
  induction is_ as [|i0 is_ IH]; intros w e w'; cbn [for_each]; [by intros [=]|].
  unfold bind at 1. rewrite bind_get_data.
  destruct (for_each (map_to_list (safe_to_removed (depenency_data w)))
              (drop_if_removed i0) w) as [[e0|[]] w1] eqn:Hinner.
  - intros [= <- _]. apply drop_inner_raises_only in Hinner. eauto.
  - apply IH.
Qed.

(** The only exception of the pass is [KeyError]. *)
Lemma drop_removed_raises_only w e w' :
  drop_removed w = (inl e, w') → ∃ j, e = KeyError j.
Proof.
  unfold drop_removed. rewrite bind_get_data. apply drop_outer_raises_only.
Qed.

Lemma drop_removed_returns_unique w w' :
  drop_removed w = (inr tt, w') →
  ∀ i m1 d1 m2 d2,
    i ∈ this_requires_by (depenency_data w) →
    safe_to_removed (depenency_data w) !! m1 = Some d1 →
    safe_to_removed (depenency_data w) !! m2 = Some d2 →
    i ∈ d1 → i ∈ d2 → m1 = m2.
Proof.
  intros Hrun i m1 d1 m2 d2 Hi H1 H2 Hd1 Hd2.
  destruct (decide (m1 = m2)) as [|Hne]; [done|].
  destruct (drop_removed_raises w i m1 d1 m2 d2) as (j & w'' & Hraise);
    try done. congruence.
Qed.

(** X13. The pass returns exactly when no package of [this_requires_by] is in the
    sets of [safe_to_removed] of two packages. *)
Theorem drop_removed_returns_iff w :
  (∃ w', drop_removed w = (inr tt, w'))
  ↔ ∀ i m1 d1 m2 d2,
      i ∈ this_requires_by (depenency_data w) →
      safe_to_removed (depenency_data w) !! m1 = Some d1 →
      safe_to_removed (depenency_data w) !! m2 = Some d2 →
      i ∈ d1 → i ∈ d2 → m1 = m2.
Proof.
  split.
  - intros [w' Hrun]. by apply (drop_removed_returns_unique w w').
  - intros Huniq. unfold drop_removed. rewrite bind_get_data.
    destruct (drop_outer_exact (elements (this_requires_by (depenency_data w))) w)
      as (T' & -> & _); [apply NoDup_elements| | |by eauto].
    + intros i. by rewrite elem_of_elements.
    + intros i m1 d1 m2 d2 Hi%elem_of_elements. by apply Huniq.
Qed.

(** X14. When the pass returns, [this_requires_by] has lost exactly its members
    that are in some set of [safe_to_removed], and nothing else of the state
    has changed. *)
Theorem drop_removed_result w w' :
  drop_removed w = (inr tt, w') →
  ∃ T' : gset string,
    w' = map_data (upd_this_requires_by (λ _, T')) w
    ∧ ∀ j, j ∈ T' ↔
        j ∈ this_requires_by (depenency_data w)
        ∧ ∀ m d, safe_to_removed (depenency_data w) !! m = Some d → j ∉ d.
Proof.
  intros Hrun. pose proof (drop_removed_returns_unique w w' Hrun) as Huniq.
  unfold drop_removed in Hrun. rewrite bind_get_data in Hrun.
  destruct (drop_outer_exact (elements (this_requires_by (depenency_data w))) w)
    as (T' & Heq & HT'); [apply NoDup_elements| | |].
  { intros i. by rewrite elem_of_elements. }
  { intros i m1 d1 m2 d2 Hi%elem_of_elements. by apply Huniq. }
  rewrite Heq in Hrun. injection Hrun as <-.
  exists T'. split; [done|]. intros j. rewrite HT', elem_of_elements.
  split; intros [Hj Hrest]; (split; [done|]).
  - intros m d Hm Hd. apply Hrest. eauto.
  - intros [_ (m & d & Hm & Hd)]. by apply (Hrest m d).
Qed.

End DropRemovedMore.

(** ** More on [analyze_recursively] and [_main] *)

Section OrchestrationMore.

Context (env : Installed).

Implicit Types (w : World) (data : DependencyData).

(** The analyzed packages after a call: those before, and the name the
    package is installed as. *)
Lemma analyze_analyzed package w w' p :
  aliases_ok env (alias_to_names w) →
  _analyze_package_dependencies env package w = (inr tt, w') →
  p ∈ analyzed_packages (depenency_data w') →
  p ∈ analyzed_packages (depenency_data w) ∨ installed_as env package = Some p.
Proof.
  intros Hc Hrun.
  destruct (decide (package ∈ WHITELIST
                    ∨ package ∈ analyzed_packages (depenency_data w))) as [Hskip|Hgo].
  { rewrite analyze_skip in Hrun by done. injection Hrun as <-. by left. }
  apply analyze_ok in Hrun; [|done|tauto|tauto].
  destruct Hrun as (p0 & reqs & V & NI & WL & T & deps' & Hp & _ & _ & _
                    & _ & _ & _ & _ & _ & ->).
  simpl. intros [->%elem_of_singleton|?]%elem_of_union; [by right|by left].
Qed.

Lemma analyze_all_analyzed packages : ∀ w w' p,
  reachable env w →
  for_each packages (_analyze_package_dependencies env) w = (inr tt, w') →
  p ∈ analyzed_packages (depenency_data w') →
  p ∈ analyzed_packages (depenency_data w)
  ∨ ∃ t, t ∈ packages ∧ installed_as env t = Some p.
Proof.
  induction packages as [|t packages IH]; intros w w' p Hreach; cbn [for_each].
  { intros [= <-]. by left. }
  intros ([] & w1 & Hstep & Hrest)%bind_inr Hp.
  destruct (reachable_ok _ _ Hreach) as [Hc _].
  destruct (IH w1 w' p) as [Hp1|(t' & Ht' & Has)]; try done.
  - by eapply reachable_analyze.
  - destruct (analyze_analyzed _ _ _ _ Hc Hstep Hp1) as [?|?]; [by left|].
    right. exists t. split; [by left|done].
  - right. exists t'. split; [by right|done].
Qed.

Lemma analyze_all_keeps_this_requires_by packages : ∀ w w',
  reachable env w →
  (∀ t, t ∈ packages → installed_as env t ≠ Some (target (depenency_data w))) →
  for_each packages (_analyze_package_dependencies env) w = (inr tt, w') →
  this_requires_by (depenency_data w') = this_requires_by (depenency_data w).
Proof.
  induction packages as [|t packages IH]; intros w w' Hreach Hother; cbn [for_each].
  { by intros [= <-]. }
  intros ([] & w1 & Hstep & Hrest)%bind_inr.
  destruct (reachable_ok _ _ Hreach) as [Hc Hok].
  destruct (analyze_keeps_ok _ _ _ _ Hc Hok Hstep) as (_ & _ & Htgt).
  rewrite (IH w1 w'); try done.
  - apply (analyze_keeps_this_requires_by env t); [done| |done].
    apply Hother. by left.
  - by eapply reachable_analyze.
  - intros t' Ht'. rewrite Htgt. apply Hother. by right.
Qed.

Lemma analyze_all_returns packages : ∀ w,
  index_consistent env → reachable env w →
  (∀ t, t ∈ packages → installed env t) →
  ∃ w', for_each packages (_analyze_package_dependencies env) w = (inr tt, w').
Proof.
  induction packages as [|t packages IH]; intros w Hcons Hreach Hin; cbn [for_each].
  { by exists w. }
  destruct (reachable_ok _ _ Hreach) as [Hc _].
  destruct (analyze_returns env t w Hcons Hc) as [w1 Hstep]; [apply Hin; by left|].
  rewrite (bind_eq _ _ _ _ _ Hstep). apply IH; [done| |].
  - by eapply reachable_analyze.
  - intros t' Ht'. apply Hin. by right.
Qed.

(** The members of [safe_to_removed] in a state that satisfies the
    invariant are installed and not whitelisted. *)
Lemma safe_member_vaild data p d :
  data_ok env data → d ∈ safe_of data p → installed env d ∧ d ∉ WHITELIST.
Proof.
  intros [Han Hnot] Hd. unfold safe_of in Hd.
  destruct (decide (p ∈ analyzed_packages data)) as [Hp|Hno].
  - destruct (Han p Hp) as (reqs & S & deps & _ & HS & _ & _ & _ & _ & _ & Hsafe).
    rewrite HS in Hd. apply Hsafe in Hd as [(_ & ? & ?) _]. done.
  - destruct (Hnot p Hno) as (HS & _). rewrite HS in Hd.
    by apply elem_of_empty in Hd.
Qed.

(** X15. With a consistent index, [analyze_recursively] on the new resolver of a
    target [__init__] accepts returns, or raises the [KeyError] of the pass
    of lines 307-314: it raises nothing else. *)
Theorem analyze_recursively_returns_or_KeyError tgt aliases data0 aliases0 :
  index_consistent env → aliases_ok env aliases →
  __init__ env tgt aliases = (inr data0, aliases0) →
  ∃ w', (∃ b, analyze_recursively env
                {| depenency_data := data0; alias_to_names := aliases0 |}
              = (inr b, w'))
        ∨ (∃ j, analyze_recursively env
                  {| depenency_data := data0; alias_to_names := aliases0 |}
                = (inl (KeyError j), w')).
Proof.
  intros Hcons Hc Hinit.
  assert (data0 = DependencyData_new tgt ∧ aliases_ok env aliases0
          ∧ installed env tgt) as (-> & Hc0 & Hin).
  { rewrite init_cases in Hinit.
    destruct (does_pkg_exists env tgt aliases) as [[e|found] c'] eqn:Hex; [done|].
    apply does_pkg_exists_ok in Hex as [Hc' Hfound]; [|done].
    destruct found; [|done]. injection Hinit as <- <-. split_and!; try done.
    by apply Hfound. }
  set (w0 := {| depenency_data := DependencyData_new tgt;
                alias_to_names := aliases0 |}).
  assert (reachable env w0) as Hreach0 by by apply reachable_new.
  destruct (analyze_returns env tgt w0 Hcons Hc0 Hin) as [w1 Hstep].
  assert (reachable env w1) as Hreach1 by by eapply reachable_analyze.
  unfold analyze_recursively. rewrite bind_get_data.
  change (target (depenency_data w0)) with tgt.
  rewrite (bind_eq _ _ _ _ _ Hstep), bind_get_data.
  fold (safe_of (depenency_data w1) tgt).
  case_bool_decide as Hempty; [by eauto|].
  destruct (analyze_all_returns (elements (safe_of (depenency_data w1) tgt)) w1)
    as [w2 Hall]; [done|done| |].
  { intros t Ht%elem_of_elements.
    destruct (reachable_ok _ _ Hreach1) as [_ Hok1].
    by destruct (safe_member_vaild _ _ _ Hok1 Ht). }
  rewrite (bind_eq _ _ _ _ _ Hall).
  destruct (drop_removed w2) as [[e|[]] w3] eqn:Hdrop.
  - apply drop_removed_raises_only in Hdrop as Hj. destruct Hj as [j ->].
    exists w3. right. exists j. by rewrite (bind_raise _ _ _ _ _ Hdrop).
  - exists w3. left. exists true. by rewrite (bind_eq _ _ _ _ _ Hdrop).
Qed.

(** X16. [analyze_recursively] goes two levels deep and no further: when it
    returns on a new resolver, every analyzed package is the target or a
    member of [safe_to_removed.get(target, set())] as the first analysis left
    it, each under the name it is installed as. *)
Theorem analyze_recursively_two_levels tgt aliases w1 b w' p :
  aliases_ok env aliases →
  _analyze_package_dependencies env tgt (new_resolver tgt aliases) = (inr tt, w1) →
  analyze_recursively env (new_resolver tgt aliases) = (inr b, w') →
  p ∈ analyzed_packages (depenency_data w') →
  installed_as env tgt = Some p
  ∨ ∃ t, t ∈ safe_of (depenency_data w1) tgt ∧ installed_as env t = Some p.
Proof.
  intros Hc Hstep (w1' & Hstep' & Hcases)%analyze_recursively_inv Hp.
  change (target (depenency_data (new_resolver tgt aliases))) with tgt
    in Hstep', Hcases.
  rewrite Hstep in Hstep'. injection Hstep' as <-.
  assert (reachable env (new_resolver tgt aliases)) as Hreach0
    by by apply reachable_new.
  assert (reachable env w1) as Hreach1 by by eapply reachable_analyze.
  assert (∀ p, p ∈ analyzed_packages (depenency_data w1) →
               installed_as env tgt = Some p) as Hfirst.
  { intros p0 Hp0.
    destruct (analyze_analyzed tgt (new_resolver tgt aliases) w1 p0 Hc Hstep Hp0)
      as [Hold|?]; [|done].
    by apply elem_of_empty in Hold. }
  destruct Hcases as [(_ & _ & ->)|(_ & _ & w2 & Hall & Hdrop)].
  { left. by apply Hfirst. }
  apply drop_removed_returns in Hdrop as (T' & -> & _). simpl_data.
  destruct (analyze_all_analyzed _ _ _ p Hreach1 Hall Hp) as [?|(t & Ht & Has)].
  - left. by apply Hfirst.
  - right. exists t. split; [|done]. by apply elem_of_elements.
Qed.

(** X17. For a target given under a name that is no key of the dict,
    [analyze_recursively] on a new resolver, when it returns, returns
    [False] and leaves [this_requires_by] empty: the entries are filed under
    the name the target is installed as, and line 298 reads the name
    given. *)
Theorem alias_target_removes_nothing tgt aliases b w' :
  aliases_ok env aliases →
  distributions env !! tgt = None →
  analyze_recursively env (new_resolver tgt aliases) = (inr b, w') →
  b = false ∧ this_requires_by (depenency_data w') = ∅.
Proof.
  intros Hc Hkey (w1 & Hstep & Hcases)%analyze_recursively_inv.
  change (target (depenency_data (new_resolver tgt aliases))) with tgt
    in Hstep, Hcases.
  assert (reachable env (new_resolver tgt aliases)) as Hreach0
    by by apply reachable_new.
  assert (reachable env w1) as Hreach1 by by eapply reachable_analyze.
  assert (safe_of (depenency_data w1) tgt = ∅) as Hempty.
  { destruct (reachable_ok _ _ Hreach1) as [_ [Han Hnot]]. unfold safe_of.
    destruct (decide (tgt ∈ analyzed_packages (depenency_data w1))) as [Hp|Hno].
    - destruct (Han tgt Hp) as (reqs & _ & _ & Hreqs & _). congruence.
    - by destruct (Hnot tgt Hno) as (-> & _). }
  destruct Hcases as [(-> & _ & ->)|(_ & Hne & _)]; [|done].
  split; [done|].
  destruct (decide (tgt ∈ WHITELIST
                    ∨ tgt ∈ analyzed_packages
                              (depenency_data (new_resolver tgt aliases))))
    as [Hskip|Hgo].
  { rewrite analyze_skip in Hstep by done. by injection Hstep as <-. }
  apply analyze_ok in Hstep; [|done|tauto|tauto].
  destruct Hstep as (p & reqs & V & NI & WL & T & deps' & _ & Hreqs & _ & _
                     & _ & _ & HT & _ & _ & Hdata).
  rewrite Hdata. simpl. apply set_eq. intros q. rewrite HT. simpl.
  rewrite elem_of_empty. split; [|done]. intros [[]|[-> _]]. congruence.
Qed.

(** X18. What [_main] never does: on the new resolver of a target [__init__]
    accepts, every name it passes to [pip uninstall] is installed and is no
    member of [WHITELIST]. *)
Theorem uninstalled_names_allowed tgt aliases data0 aliases0
    (quiet yes answer : bool) args w' :
  aliases_ok env aliases →
  __init__ env tgt aliases = (inr data0, aliases0) →
  _main env quiet yes answer
    {| depenency_data := data0; alias_to_names := aliases0 |}
    = (inr (Some args), w') →
  ∃ names : list string,
    args = (["uninstall"; "--yes"] ++ (if quiet then ["--quiet"] else []) ++ names)%list
    ∧ ∀ x, x ∈ names → installed env x ∧ x ∉ WHITELIST.
Proof.
  intros Hc Hinit.
  assert (data0 = DependencyData_new tgt ∧ aliases_ok env aliases0
          ∧ installed env tgt) as (-> & Hc0 & Hin).
  { rewrite init_cases in Hinit.
    destruct (does_pkg_exists env tgt aliases) as [[e|found] c'] eqn:Hex; [done|].
    apply does_pkg_exists_ok in Hex as [Hc' Hfound]; [|done].
    destruct found; [|done]. injection Hinit as <- <-. split_and!; try done.
    by apply Hfound. }
  set (w0 := {| depenency_data := DependencyData_new tgt;
                alias_to_names := aliases0 |}).
  assert (reachable env w0) as Hreach0 by by apply reachable_new.
  unfold _main. intros (rv & w1 & Hrun & H)%bind_inr.
  destruct (analyze_recursively_ok _ _ _ _ Hreach0 Hrun) as [Hok Htgt].
  destruct rv; simpl in H; [|done].
  destruct (if quiet || yes then true else answer); [|done].
  rewrite bind_get_data in H. injection H as <- <-.
  assert (tgt ∉ WHITELIST) as Hw.
  { intros Hw. apply analyze_recursively_inv in Hrun as (w1' & Hstep & Hcases).
    change (target (depenency_data w0)) with tgt in Hstep, Hcases.
    rewrite analyze_skip in Hstep by by left. injection Hstep as <-.
    destruct Hcases as [(? & _)|(_ & Hne & _)]; [done|]. by apply Hne. }
  destruct (remove_packages_args quiet (depenency_data w1))
    as (names & Hargs & _ & Hnames).
  exists names. split; [done|]. intros x [->|(p & deps & Hp & Hx)]%Hnames.
  - by rewrite Htgt.
  - apply (safe_member_vaild (depenency_data w1) p); [done|].
    unfold safe_of. by rewrite Hp.
Qed.

End OrchestrationMore.

(** ** Logging *)

Section Logging.

(** X19. A record that passes the filter at one verbosity passes it at every
    higher one. *)
Theorem filter_monotone (v v' levelno : Z) :
  (v ≤ v')%Z →
  _PipRemoveFilter_filter v levelno = true →
  _PipRemoveFilter_filter v' levelno = true.
Proof.
  unfold _PipRemoveFilter_filter. intros Hle.
  repeat case_bool_decide; try done; lia.
Qed.

(** X20. The logger [setup_logging] makes does not depend on the [logfile] it is
    given: the logger is made before [_log_fileobj] is set, so its handlers
    are those for the value [_log_fileobj] had before the call. *)
Theorem setup_logging_logger_ignores_logfile quiet verbosity logfile logfile' g :
  _logger (setup_logging quiet verbosity logfile g)
  = _logger (setup_logging quiet verbosity logfile' g).
Proof. by destruct logfile, logfile'. Qed.

End Logging.

(** ** [distributions_as_dict] *)

Section DistributionsAsDict.

Lemma dict_by_name_snoc dists d :
  dict_by_name (dists ++ [d]) = <[dist_name d := d]> (dict_by_name dists).
Proof. unfold dict_by_name. by rewrite foldl_snoc. Qed.

Lemma snoc_cases {A} (l : list A) : l = [] ∨ ∃ l' x, l = (l' ++ [x])%list.
Proof. induction l as [|x l _] using rev_ind; [by left|right; eauto]. Qed.

(** X21. The dict has [d] under the key [k] exactly when [d] is the last
    distribution found whose name is [k]. *)
Theorem dict_by_name_lookup dists k d :
  dict_by_name dists !! k = Some d
  ↔ ∃ before after,
      dists = (before ++ d :: after)%list
      ∧ dist_name d = k
      ∧ ∀ d', d' ∈ after → dist_name d' ≠ k.
Proof.
  revert d. induction dists as [|d0 dists IH] using rev_ind; intros d.
  { unfold dict_by_name. simpl. rewrite lookup_empty. split; [done|].
    intros (before & after & Heq & _). by destruct before. }
  rewrite dict_by_name_snoc, lookup_insert. case_decide as Hk.
  - split.
    + intros [= <-]. exists dists, []. split_and!; [done|done|].
      by intros d' ?%elem_of_nil.
    + intros (before & after & Heq & Hname & Hlast).
      destruct (snoc_cases after) as [->|(after' & d1 & ->)].
      * apply app_inj_tail in Heq as [_ ->]. done.
      * rewrite app_comm_cons, app_assoc in Heq.
        apply app_inj_tail in Heq as [_ ?]. subst d1.
        exfalso. apply (Hlast d0); [|done]. apply elem_of_app. right. by left.
  - rewrite IH. split.
    + intros (before & after & -> & Hname & Hlast).
      exists before, (after ++ [d0])%list. split_and!; [|done|].
      * by rewrite <- app_assoc.
      * intros d' [?|Hd']%elem_of_app; [by apply Hlast|].
        apply list_elem_of_singleton in Hd' as ->. congruence.
    + intros (before & after & Heq & Hname & Hlast).
      destruct (snoc_cases after) as [->|(after' & d1 & ->)].
      * apply app_inj_tail in Heq as [_ ->]. done.
      * rewrite app_comm_cons, app_assoc in Heq.
        apply app_inj_tail in Heq as [-> ?]. subst d1.
        exists before, after'. split_and!; [done|done|].
        intros d' Hd'. apply Hlast, elem_of_app. by left.
Qed.

(** A second call of [distributions_as_dict] returns what the first
    returned, whatever is installed by then. *)
Theorem distributions_as_dict_cached found found' s :
  bind (distributions_as_dict found) (λ _, distributions_as_dict found') s
  = distributions_as_dict found s.
Proof. unfold distributions_as_dict, bind, get. by destruct s. Qed.

End DistributionsAsDict.

(** ** [choice] *)

Section Choice.

Lemma choice_loop_skip message line rest out :
  answer_of line = None →
  choice_loop message (line :: rest) out
  = choice_loop message rest (out ++ written_for message line).
Proof.
  unfold answer_of, written_for. cbn [choice_loop].
  case_bool_decide; [done|].
  destruct (CHOICE_YES_REGEX (strip line)); [done|].
  destruct (CHOICE_NO_REGEX (strip line)); [done|].
  intros _. by rewrite <- app_assoc.
Qed.

Lemma choice_loop_answer message line rest out v :
  answer_of line = Some v →
  choice_loop message (line :: rest) out
  = (Some v, {| stdin := rest; stdout := out ++ [message] |}).
Proof.
  unfold answer_of. cbn [choice_loop].
  case_bool_decide; [done|].
  destruct (CHOICE_YES_REGEX (strip line)); [by intros [= <-]|].
  destruct (CHOICE_NO_REGEX (strip line)); [by intros [= <-]|done].
Qed.

Lemma choice_loop_skips message skipped : ∀ lines out,
  Forall (λ l, answer_of l = None) skipped →
  choice_loop message (skipped ++ lines) out
  = choice_loop message lines (out ++ (skipped ≫= written_for message)).
Proof.
  induction skipped as [|l skipped IH]; intros lines out Hskip.
  { simpl. by rewrite app_nil_r. }
  apply Forall_cons in Hskip as [Hl Hskip].
  rewrite <- app_comm_cons, choice_loop_skip by done. rewrite IH by done.
  by rewrite bind_cons, app_assoc.
Qed.

(** X22. [choice] returns the answer of the first line that is one: the lines
    before it are read and are each answered with the prompt again, after
    the error message unless the line was blank; the lines after it are left
    unread. *)
Theorem choice_first_answer message console skipped line rest v :
  stdin console = (skipped ++ line :: rest)%list →
  Forall (λ l, answer_of l = None) skipped →
  answer_of line = Some v →
  choice message console
  = (Some v,
     {| stdin := rest;
        stdout := (stdout console
                   ++ (skipped ≫= written_for (message +:+ " (y/n/yes/no): "))
                   ++ [message +:+ " (y/n/yes/no): "])%list |}).
Proof.
  intros Hin Hskip Hline. unfold choice. rewrite Hin.
  rewrite choice_loop_skips by done.
  rewrite (choice_loop_answer _ _ _ _ v) by done.
  by rewrite <- app_assoc.
Qed.

(** X23. When no line of the input is an answer, [choice] reads all of it and
    ends with the [EOFError] of [input]. *)
Theorem choice_no_answer message console :
  Forall (λ l, answer_of l = None) (stdin console) →
  choice message console
  = (None,
     {| stdin := [];
        stdout := (stdout console
                   ++ (stdin console ≫= written_for (message +:+ " (y/n/yes/no): "))
                   ++ [message +:+ " (y/n/yes/no): "])%list |}).
Proof.
  intros Hskip. unfold choice.
  rewrite <- (app_nil_r (stdin console)) at 1.
  rewrite choice_loop_skips by done. simpl. by rewrite <- app_assoc.
Qed.


Lemma lower_empty s : lower s = EmptyString → s = EmptyString.
Proof. by destruct s. Qed.



Lemma is_space_lower c : is_space (lower_char c) = is_space c.
Proof. by destruct c as [[] [] [] [] [] [] [] []]; vm_compute. Qed.

Lemma lower_char_idem c : lower_char (lower_char c) = lower_char c.
Proof. by destruct c as [[] [] [] [] [] [] [] []]; vm_compute. Qed.

Lemma lower_idem s : lower (lower s) = lower s.
Proof. induction s as [|c s IH]; simpl; [done|]. by rewrite lower_char_idem, IH. Qed.

Lemma lower_lstrip s : lower (lstrip s) = lstrip (lower s).
Proof.
  induction s as [|c s IH]; simpl; [done|]. rewrite is_space_lower.
  by destruct (is_space c).
Qed.

Lemma lower_rstrip s : lower (rstrip s) = rstrip (lower s).
Proof.
  induction s as [|c s IH]; simpl; [done|]. rewrite <- IH, is_space_lower.
  destruct (rstrip s) as [|c' r]; simpl; [by destruct (is_space c)|done].
Qed.

Lemma lower_strip s : lower (strip s) = strip (lower s).
Proof. unfold strip. by rewrite lower_rstrip, lower_lstrip. Qed.

Lemma answer_of_lower line : answer_of (lower line) = answer_of line.
Proof.
  unfold answer_of, CHOICE_YES_REGEX, CHOICE_NO_REGEX, re_match_either.
  rewrite <- lower_strip, lower_idem.
  destruct (decide (strip line = EmptyString)) as [Hempty|Hfull].
  - rewrite !bool_decide_eq_true_2; [done|done|by rewrite Hempty].
  - rewrite !(bool_decide_eq_false_2 (_ = EmptyString)); [done|done|].
    by intros ?%lower_empty.
Qed.

Lemma lstrip_blank_l ws s : lstrip ws = EmptyString → lstrip (ws +:+ s) = lstrip s.
Proof.
  induction ws as [|c ws IH]; simpl; [done|]. by destruct (is_space c).
Qed.

Lemma lstrip_app s t :
  lstrip s ≠ EmptyString → lstrip (s +:+ t) = lstrip s +:+ t.
Proof.
  induction s as [|c s IH]; simpl; [done|]. by destruct (is_space c).
Qed.

Lemma rstrip_blank ws : lstrip ws = EmptyString → rstrip ws = EmptyString.
Proof.
  induction ws as [|c ws IH]; simpl; [done|].
  destruct (is_space c); [|done]. intros ->%IH. done.
Qed.

Lemma rstrip_blank_r s ws : lstrip ws = EmptyString → rstrip (s +:+ ws) = rstrip s.
Proof.
  intros Hws. induction s as [|c s IH]; simpl; [by apply rstrip_blank|].
  by rewrite IH.
Qed.

Lemma strip_blank ws : strip ws = EmptyString → lstrip ws = EmptyString.
Proof.
  unfold strip. induction ws as [|c ws IH]; simpl; [done|].
  destruct (is_space c) eqn:Hc; [done|]. simpl. rewrite Hc.
  by destruct (rstrip ws).
Qed.

Lemma strip_padded ws1 s ws2 :
  strip ws1 = EmptyString → strip ws2 = EmptyString →
  strip (ws1 +:+ s +:+ ws2) = strip s.
Proof.
  intros H1%strip_blank H2%strip_blank. unfold strip.
  rewrite lstrip_blank_l by done.
  destruct (decide (lstrip s = EmptyString)) as [Hs|Hs].
  - rewrite lstrip_blank_l by done. rewrite H2, Hs. done.
  - rewrite lstrip_app by done. by apply rstrip_blank_r.
Qed.

(** X25. Blanks around an answer and the case of its letters do not matter. *)
Theorem answer_of_insensitive ws1 line ws2 line' :
  strip ws1 = EmptyString → strip ws2 = EmptyString →
  lower line = lower line' →
  answer_of (ws1 +:+ line +:+ ws2) = answer_of line'.
Proof.
  intros H1 H2 Hcase.
  assert (answer_of (ws1 +:+ line +:+ ws2) = answer_of line) as ->.
  { unfold answer_of. by rewrite strip_padded. }
  by rewrite <- (answer_of_lower line), Hcase, answer_of_lower.
Qed.

End Choice.

(** ** [_print_results] *)

Section PrintResults.

Implicit Types (data : DependencyData).

Lemma string_compare_trans s1 : ∀ s2 s3,
  String.compare s1 s2 ≠ Gt → String.compare s2 s3 ≠ Gt →
  String.compare s1 s3 ≠ Gt.
Proof.
  induction s1 as [|c1 s1 IH]; intros [|c2 s2] [|c3 s3]; simpl; try done.
  unfold Ascii.compare.
  destruct (N.compare_spec (Ascii.N_of_ascii c1) (Ascii.N_of_ascii c2)) as [H12|H12|H12];
    destruct (N.compare_spec (Ascii.N_of_ascii c2) (Ascii.N_of_ascii c3)) as [H23|H23|H23];
    try done;
    destruct (N.compare_spec (Ascii.N_of_ascii c1) (Ascii.N_of_ascii c3)) as [H13|H13|H13];
    try done; try lia.
  apply IH.
Qed.

#[local] Instance string_le_total : Total string_le.
Proof. intros a b. apply String.leb_total. Qed.

#[local] Instance string_le_trans : Transitive string_le.
Proof.
  intros a b c. unfold string_le, String.leb. intros Hab Hbc.
  pose proof (string_compare_trans a b c) as Hac.
  destruct (String.compare a b); try done;
    destruct (String.compare b c); try done;
    destruct (String.compare a c); try done; by exfalso; apply Hac.
Qed.

Lemma any_nonempty_true {V} `{Empty V, EqDecision V} (d : gmap string V) :
  any_nonempty d = true ↔ ∃ k v, d !! k = Some v ∧ v ≠ ∅.
Proof.
  unfold any_nonempty. rewrite existsb_exists. split.
  - intros ([k v] & Hin & Hv). apply list_elem_of_In in Hin.
    apply elem_of_map_to_list in Hin. apply bool_decide_eq_true in Hv.
    by exists k, v.
  - intros (k & v & Hk & Hv). exists (k, v). split.
    + apply list_elem_of_In. by apply elem_of_map_to_list.
    + by apply bool_decide_eq_true.
Qed.

Lemma any_nonempty_false {V} `{Empty V, EqDecision V} (d : gmap string V) :
  any_nonempty d = false ↔ ∀ k v, d !! k = Some v → v = ∅.
Proof.
  rewrite <- not_true_iff_false, any_nonempty_true. split.
  - intros Hno k v Hk. destruct (decide (v = ∅)) as [|Hv]; [done|].
    exfalso. apply Hno. by exists k, v.
  - intros Hall (k & v & Hk & Hv). by apply Hv, (Hall k).
Qed.

Lemma part_nil {A} (b : bool) (h : A) (l : list A) :
  (if b then h :: l else []) = [] ↔ b = false.
Proof. by destruct b. Qed.

Lemma part_nil2 {A} (b c : bool) (h : A) (l : list A) :
  (if b then if c then h :: l else [] else []) = [] ↔ b = false ∨ c = false.
Proof. destruct b, c; naive_solver. Qed.

Lemma nonempty_false `{EqDecision C, Empty C} (X : C) :
  bool_decide (X ≠ ∅) = false ↔ X = ∅.
Proof.
  rewrite bool_decide_eq_false. split; [apply dec_stable|]. by intros -> ?.
Qed.

Lemma any_nonempty_or {V} `{Empty V, EqDecision V} (d : gmap string V) :
  bool_decide (d ≠ ∅) = false ∨ any_nonempty d = false
  ↔ ∀ k v, d !! k = Some v → v = ∅.
Proof.
  rewrite <- any_nonempty_false, nonempty_false. split; [|by right].
  intros [->|?]; [|done]. apply any_nonempty_false. intros k v.
  by rewrite lookup_empty.
Qed.

(** X26. [_print_results] prints nothing exactly when [_logger] is not set or
    there is nothing to tell: no package requires the target, no requirement
    is missing or whitelisted, and every entry of
    [package_depenencies_required_by] and of [safe_to_removed] is empty. *)
Theorem print_results_nothing_iff logger data :
  _print_results logger data = []
  ↔ logger = false
    ∨ (this_requires_by data = ∅
       ∧ never_installed data = ∅
       ∧ whitelisted data = ∅
       ∧ (∀ p deps, package_depenencies_required_by data !! p = Some deps →
            deps = ∅)
       ∧ (∀ p deps, safe_to_removed data !! p = Some deps → deps = ∅)).
Proof.
  unfold _print_results. destruct logger; cbn zeta.
  2: { rewrite !andb_false_r. split; [by left|done]. }
  rewrite !andb_true_r, !app_nil, !part_nil, !part_nil2, !any_nonempty_or,
    !nonempty_false.
  split; [intros (? & ? & ? & ? & ?); right; done|].
  intros [?|(? & ? & ? & ? & ?)]; done.
Qed.

(** X27. When some package requires the target, the report starts with the
    header for these packages and one line for each of them, without
    repetition and in ascending order of the names. *)
Theorem print_results_dependents data :
  this_requires_by data ≠ ∅ →
  ∃ names rest,
    _print_results true data =
      ("The following packages used this as a dependency:"
         :: ((λ i, format_indent 4 +:+ i) <$> names) ++ rest)%list
    ∧ StronglySorted string_le names
    ∧ NoDup names
    ∧ ∀ i, i ∈ names ↔ i ∈ this_requires_by data.
Proof.
  intros Hne. unfold _print_results. cbn zeta.
  rewrite (bool_decide_eq_true_2 (this_requires_by data ≠ ∅)) by done.
  cbn [andb]. eexists (sorted (elements (this_requires_by data))), _.
  split; [by rewrite <- app_comm_cons|].
  unfold sorted. split_and!.
  - apply (StronglySorted_merge_sort _).
  - rewrite merge_sort_Permutation. apply NoDup_elements.
  - intros i. by rewrite merge_sort_Permutation, elem_of_elements.
Qed.

(** X28. When some set of [safe_to_removed] has a member, the report ends with
    the header [will be REMOVED] and, after it, exactly the lines
    [<dep> (a dependency of <package>)] for the members [dep] of
    [safe_to_removed[package]]. *)
Theorem print_results_removed data p0 :
  safe_of data p0 ≠ ∅ →
  ∃ before lines,
    _print_results true data =
      (before
       ++ "The following dependencies of this module/package will be REMOVED:"
          :: lines)%list
    ∧ ∀ l, l ∈ lines ↔
        ∃ p dep, dep ∈ safe_of data p
          ∧ l = format_indent 4 +:+ dep +:+ " (a dependency of " +:+ p +:+ ")".
Proof.
  intros Hne. unfold safe_of in Hne.
  destruct (safe_to_removed data !! p0) as [deps0|] eqn:Hp0; [|done].
  simpl in Hne.
  assert (safe_to_removed data ≠ ∅) as Hmap.
  { intros Hempty. by rewrite Hempty, lookup_empty in Hp0. }
  assert (any_nonempty (safe_to_removed data) = true) as Hany.
  { apply any_nonempty_true. by exists p0, deps0. }
  unfold _print_results. cbn zeta.
  rewrite (bool_decide_eq_true_2 (safe_to_removed data ≠ ∅)) by done.
  rewrite Hany. cbn [andb].
  eexists _, _. split; [by rewrite !app_assoc|].
  intros l. rewrite list_elem_of_bind. unfold safe_of. split.
  - intros ([p deps] & Hl & Hp%elem_of_map_to_list).
    apply list_elem_of_fmap in Hl as (dep & -> & Hdep%elem_of_elements).
    exists p, dep. by rewrite Hp.
  - intros (p & dep & Hdep & ->).
    destruct (safe_to_removed data !! p) as [deps|] eqn:Hp;
      [|by apply elem_of_empty in Hdep].
    exists (p, deps). split; [|by apply elem_of_map_to_list].
    apply list_elem_of_fmap. exists dep. split; [done|]. by apply elem_of_elements.
Qed.

End PrintResults.

(** ** [_main] with the console *)

Section MainIOFacts.

Context (env : Installed).

(** X29. With [--quiet] or [--yes], [_main] does what the model without the
    console does, whatever the answer there, and reads no input. *)
Theorem main_io_without_question logger (quiet yes answer : bool) w console :
  quiet || yes = true →
  (_main_io env logger quiet yes w console).1
    = (match (_main env quiet yes answer w).1 with
       | inl e => inl (Raised e)
       | inr call => inr call
       end,
       (_main env quiet yes answer w).2)
  ∧ stdin (_main_io env logger quiet yes w console).2 = stdin console.
Proof.
  intros Hyes. unfold _main_io, _main, bind. rewrite Hyes.
  destruct (analyze_recursively env w) as [[e|[]] w']; done.
Qed.

(** X30. Without [--quiet] and [--yes], when [analyze_recursively] returns
    [True]: the report is printed, then the question is asked until a line
    is an answer; [pip uninstall] is called if that answer is yes and not if
    it is no, and the lines after it are left unread. *)
Theorem main_io_asks logger w w' console skipped line rest (v : bool) :
  analyze_recursively env w = (inr true, w') →
  stdin console = (skipped ++ line :: rest)%list →
  Forall (λ l, answer_of l = None) skipped →
  answer_of line = Some v →
  _main_io env logger false false w console
  = (inr (if v then Some (_remove_packages false (depenency_data w')) else None),
     w',
     {| stdin := rest;
        stdout := (stdout console
                   ++ _print_results logger (depenency_data w')
                   ++ (skipped ≫= written_for "Continue to uninstall? (y/n/yes/no): ")
                   ++ ["Continue to uninstall? (y/n/yes/no): "])%list |}).
Proof.
  intros Hrun Hin Hskip Hline. unfold _main_io. rewrite Hrun. cbn [orb].
  unfold choice. cbn [stdin stdout]. rewrite Hin.
  rewrite choice_loop_skips by done.
  rewrite (choice_loop_answer _ _ _ _ v) by done.
  rewrite <- !app_assoc. by destruct v.
Qed.

End MainIOFacts.

(** ** The further statements on concrete inputs *)

Section ConcreteMore.

Lemma no_alias_consistent dists :
  index_consistent {| distributions := dists; distribution := no_alias |}.
Proof. intros name d_name. simpl. unfold no_alias. done. Qed.


Lemma after_analyze_reachable env tgt :
  _analyze_package_dependencies env tgt (new_resolver tgt ∅)
    = (inr tt, after_analyze env tgt) →
  reachable env (after_analyze env tgt).
Proof.
  intros Hrun. eapply reachable_analyze; [|exact Hrun].
  apply reachable_new, aliases_ok_empty.
Qed.

Lemma get_distribution_cache_grows_witness :
  get_distribution alias_env "foo" ∅ = (inr "Foo", {[ "foo" := "Foo" ]})
  ∧ (∅ : gmap string string) ⊆ {[ "foo" := "Foo" ]}
  ∧ ∀ n d, ({[ "foo" := "Foo" ]} : gmap string string) !! n = Some d →
      (∅ : gmap string string) !! n = Some d
      ∨ (n = "foo" ∧ (∅ : gmap string string) !! "foo" = None
         ∧ distributions alias_env !! "foo" = None
         ∧ distribution alias_env "foo" = Some d).
Proof.
  assert (get_distribution alias_env "foo" ∅ = (inr "Foo", {[ "foo" := "Foo" ]}))
    as Hrun by (vm_compute; reflexivity).
  split; [exact Hrun|].
  exact (get_distribution_cache_grows alias_env "foo" ∅ _ _ Hrun).
Defined.

Lemma get_distribution_again_witness :
  get_distribution stale_env "b" ∅ = (inr "B", {[ "b" := "B" ]})
  ∧ get_distribution stale_env "b" {[ "b" := "B" ]}
    = match distributions stale_env !! "B" with
      | Some _ => (inr "B", {[ "b" := "B" ]})
      | None => (inl (KeyError "B"), {[ "b" := "B" ]})
      end.
Proof.
  assert (get_distribution stale_env "b" ∅ = (inr "B", {[ "b" := "B" ]}))
    as Hrun by (vm_compute; reflexivity).
  split; [exact Hrun|].
  exact (get_distribution_again stale_env "b" ∅ "B" _ Hrun).
Defined.


Lemma analyze_target_fills_this_requires_by_witness :
  distributions mutual_env !! "A" = Some ["B"]
  ∧ ("A" ∉ WHITELIST)
  ∧ _analyze_package_dependencies mutual_env "A" (new_resolver "A" ∅)
      = (inr tt, after_analyze mutual_env "A")
  ∧ ("B" ∈ this_requires_by (depenency_data (after_analyze mutual_env "A"))
     ↔ ∃ reqs_q, distributions mutual_env !! "B" = Some reqs_q ∧ "A" ∈ reqs_q
                 ∧ "B" ≠ "A" ∧ "B" ∉ WHITELIST).
Proof.
  assert (distributions mutual_env !! "A" = Some ["B"]) as Hreqs
    by (vm_compute; reflexivity).
  assert ("A" ∉ WHITELIST) as Hw
    by (apply (bool_decide_unpack _); vm_compute; exact I).
  assert (_analyze_package_dependencies mutual_env "A" (new_resolver "A" ∅)
            = (inr tt, after_analyze mutual_env "A")) as Hrun
    by (vm_compute; reflexivity).
  split; [exact Hreqs|]. split; [exact Hw|]. split; [exact Hrun|].
  exact (analyze_target_fills_this_requires_by mutual_env "A" ∅ _ _ "B"
           (aliases_ok_empty mutual_env) Hreqs Hw Hrun).
Defined.

Lemma analyze_only_adds_witness :
  _analyze_package_dependencies chain_env "B" (after_analyze chain_env "A")
    = (inr tt, before_drop chain_env "A")
  ∧ target (depenency_data (before_drop chain_env "A"))
      = target (depenency_data (after_analyze chain_env "A"))
  ∧ whitelisted (depenency_data (after_analyze chain_env "A"))
      ⊆ whitelisted (depenency_data (before_drop chain_env "A"))
  ∧ never_installed (depenency_data (after_analyze chain_env "A"))
      ⊆ never_installed (depenency_data (before_drop chain_env "A"))
  ∧ this_requires_by (depenency_data (after_analyze chain_env "A"))
      ⊆ this_requires_by (depenency_data (before_drop chain_env "A"))
  ∧ analyzed_packages (depenency_data (after_analyze chain_env "A"))
      ⊆ analyzed_packages (depenency_data (before_drop chain_env "A"))
  ∧ ∀ p', installed_as chain_env "B" ≠ Some p' →
      safe_to_removed (depenency_data (before_drop chain_env "A")) !! p'
        = safe_to_removed (depenency_data (after_analyze chain_env "A")) !! p'
      ∧ package_depenencies_required_by (depenency_data (before_drop chain_env "A")) !! p'
        = package_depenencies_required_by
            (depenency_data (after_analyze chain_env "A")) !! p'.
Proof.
  assert (_analyze_package_dependencies chain_env "B" (after_analyze chain_env "A")
            = (inr tt, before_drop chain_env "A")) as Hrun
    by (vm_compute; reflexivity).
  assert (aliases_ok chain_env (alias_to_names (after_analyze chain_env "A")))
    as Hc.
  { intros n d. vm_compute. discriminate. }
  split; [exact Hrun|].
  exact (analyze_only_adds chain_env "B" _ _ Hc Hrun).
Defined.

Lemma analyze_twice_witness :
  is_Some (distributions chain_env !! "A")
  ∧ _analyze_package_dependencies chain_env "A" (new_resolver "A" ∅)
      = (inr tt, after_analyze chain_env "A")
  ∧ _analyze_package_dependencies chain_env "A" (after_analyze chain_env "A")
      = (inr tt, after_analyze chain_env "A").
Proof.
  assert (is_Some (distributions chain_env !! "A")) as Hkey
    by (vm_compute; eauto).
  assert (_analyze_package_dependencies chain_env "A" (new_resolver "A" ∅)
            = (inr tt, after_analyze chain_env "A")) as Hrun
    by (vm_compute; reflexivity).
  split; [exact Hkey|]. split; [exact Hrun|].
  exact (analyze_twice chain_env "A" (new_resolver "A" ∅) _
           (aliases_ok_empty chain_env) Hkey Hrun).
Defined.

Lemma analyze_missing_package_witness :
  ("ghost" ∉ WHITELIST)
  ∧ distributions chain_env !! "ghost" = None
  ∧ _analyze_package_dependencies chain_env "ghost" (new_resolver "A" ∅)
      = (inl (PackageNotFoundError "ghost"), new_resolver "A" ∅).
Proof.
  assert ("ghost" ∉ WHITELIST) as Hw
    by (apply (bool_decide_unpack _); vm_compute; exact I).
  assert ("ghost" ∉ analyzed_packages (depenency_data (new_resolver "A" ∅)))
    as Han by apply not_elem_of_empty.
  assert (distributions chain_env !! "ghost" = None) as Hkey
    by (vm_compute; reflexivity).
  split; [exact Hw|]. split; [exact Hkey|].
  exact (analyze_missing_package chain_env "ghost" (new_resolver "A" ∅)
           Hw Han Hkey eq_refl eq_refl).
Defined.

Lemma reachable_keys_witness :
  reachable chain_env (after_analyze chain_env "A")
  ∧ dom (safe_to_removed (depenency_data (after_analyze chain_env "A")))
      = analyzed_packages (depenency_data (after_analyze chain_env "A"))
  ∧ dom (package_depenencies_required_by (depenency_data (after_analyze chain_env "A")))
      = analyzed_packages (depenency_data (after_analyze chain_env "A"))
  ∧ analyzed_packages (depenency_data (after_analyze chain_env "A"))
      ⊆ dom (distributions chain_env)
  ∧ ∀ p d, (p, d) ∈ whitelisted (depenency_data (after_analyze chain_env "A"))
            ∨ (p, d) ∈ never_installed (depenency_data (after_analyze chain_env "A")) →
           p ∈ analyzed_packages (depenency_data (after_analyze chain_env "A")).
Proof.
  assert (reachable chain_env (after_analyze chain_env "A")) as Hreach.
  { apply after_analyze_reachable. vm_compute. reflexivity. }
  split; [exact Hreach|].
  exact (reachable_keys chain_env _ Hreach).
Defined.

Lemma safe_to_removed_sound_witness :
  reachable chain_env (after_analyze chain_env "A")
  ∧ "B" ∈ safe_of (depenency_data (after_analyze chain_env "A")) "A"
  ∧ ∃ reqs, distributions chain_env !! "A" = Some reqs
      ∧ "B" ∈ reqs ∧ installed chain_env "B" ∧ ("B" ∉ WHITELIST)
      ∧ ∀ q reqs_q, distributions chain_env !! q = Some reqs_q → "B" ∈ reqs_q →
          q = "A" ∨ q ∈ reqs ∨ q ∈ WHITELIST
          ∨ q = target (depenency_data (after_analyze chain_env "A")).
Proof.
  assert (reachable chain_env (after_analyze chain_env "A")) as Hreach.
  { apply after_analyze_reachable. vm_compute. reflexivity. }
  assert ("B" ∈ safe_of (depenency_data (after_analyze chain_env "A")) "A") as Hd
    by (vm_compute; reflexivity).
  split; [exact Hreach|]. split; [exact Hd|].
  exact (safe_to_removed_sound chain_env _ "A" "B" Hreach Hd).
Defined.

Lemma required_by_sound_witness :
  reachable shared_env (after_analyze shared_env "A")
  ∧ (∀ d q, q ∈ required_by_of (depenency_data (after_analyze shared_env "A")) "A" d →
       ∃ reqs reqs_q,
         distributions shared_env !! "A" = Some reqs ∧ d ∈ reqs
         ∧ installed shared_env d ∧ (d ∉ WHITELIST)
         ∧ distributions shared_env !! q = Some reqs_q ∧ d ∈ reqs_q
         ∧ q ≠ "A" ∧ (q ∉ WHITELIST)
         ∧ q ≠ target (depenency_data (after_analyze shared_env "A"))
         ∧ ¬ (q ∈ reqs ∧ installed shared_env q))
  ∧ (∀ d, d ∈ required_keys (depenency_data (after_analyze shared_env "A")) "A" →
       ∃ q, q ∈ required_by_of (depenency_data (after_analyze shared_env "A")) "A" d).
Proof.
  assert (reachable shared_env (after_analyze shared_env "A")) as Hreach.
  { apply after_analyze_reachable. vm_compute. reflexivity. }
  split; [exact Hreach|].
  exact (required_by_sound shared_env _ "A" Hreach).
Defined.

Lemma drop_removed_result_witness :
  drop_removed (before_drop mutual_env "A")
    = (inr tt, (drop_removed (before_drop mutual_env "A")).2)
  ∧ ∃ T' : gset string,
      (drop_removed (before_drop mutual_env "A")).2
        = map_data (upd_this_requires_by (λ _, T')) (before_drop mutual_env "A")
      ∧ ∀ j, j ∈ T' ↔
          j ∈ this_requires_by (depenency_data (before_drop mutual_env "A"))
          ∧ ∀ m d, safe_to_removed (depenency_data (before_drop mutual_env "A")) !! m
                     = Some d → j ∉ d.
Proof.
  assert (drop_removed (before_drop mutual_env "A")
            = (inr tt, (drop_removed (before_drop mutual_env "A")).2)) as Hrun
    by (vm_compute; reflexivity).
  split; [exact Hrun|].
  exact (drop_removed_result _ _ Hrun).
Defined.

Lemma analyze_recursively_returns_or_KeyError_witness :
  __init__ cycle_env "A" ∅ = (inr (DependencyData_new "A"), ∅)
  ∧ ∃ w', (∃ b, analyze_recursively cycle_env
                  {| depenency_data := DependencyData_new "A"; alias_to_names := ∅ |}
                = (inr b, w'))
          ∨ (∃ j, analyze_recursively cycle_env
                    {| depenency_data := DependencyData_new "A"; alias_to_names := ∅ |}
                  = (inl (KeyError j), w')).
Proof.
  assert (__init__ cycle_env "A" ∅ = (inr (DependencyData_new "A"), ∅)) as Hinit
    by (vm_compute; reflexivity).
  split; [exact Hinit|].
  exact (analyze_recursively_returns_or_KeyError cycle_env "A" ∅ _ ∅
           (no_alias_consistent _) (aliases_ok_empty cycle_env) Hinit).
Defined.

Lemma analyze_recursively_two_levels_witness :
  _analyze_package_dependencies chain_env "A" (new_resolver "A" ∅)
    = (inr tt, after_analyze chain_env "A")
  ∧ analyze_recursively chain_env (new_resolver "A" ∅)
    = (inr true, (analyze_recursively chain_env (new_resolver "A" ∅)).2)
  ∧ "B" ∈ analyzed_packages
            (depenency_data (analyze_recursively chain_env (new_resolver "A" ∅)).2)
  ∧ (installed_as chain_env "A" = Some "B"
     ∨ ∃ t, t ∈ safe_of (depenency_data (after_analyze chain_env "A")) "A"
            ∧ installed_as chain_env t = Some "B").
Proof.
  assert (_analyze_package_dependencies chain_env "A" (new_resolver "A" ∅)
            = (inr tt, after_analyze chain_env "A")) as Hstep
    by (vm_compute; reflexivity).
  assert (analyze_recursively chain_env (new_resolver "A" ∅)
            = (inr true, (analyze_recursively chain_env (new_resolver "A" ∅)).2))
    as Hrun by (vm_compute; reflexivity).
  assert ("B" ∈ analyzed_packages
                  (depenency_data (analyze_recursively chain_env (new_resolver "A" ∅)).2))
    as Hp by (vm_compute; reflexivity).
  split; [exact Hstep|]. split; [exact Hrun|]. split; [exact Hp|].
  exact (analyze_recursively_two_levels chain_env "A" ∅ _ true _ "B"
           (aliases_ok_empty chain_env) Hstep Hrun Hp).
Defined.

Lemma alias_target_removes_nothing_witness :
  distributions alias_env !! "foo" = None
  ∧ analyze_recursively alias_env (new_resolver "foo" ∅)
    = (inr false, (analyze_recursively alias_env (new_resolver "foo" ∅)).2)
  ∧ false = false
  ∧ this_requires_by
      (depenency_data (analyze_recursively alias_env (new_resolver "foo" ∅)).2) = ∅.
Proof.
  assert (distributions alias_env !! "foo" = None) as Hkey
    by (vm_compute; reflexivity).
  assert (analyze_recursively alias_env (new_resolver "foo" ∅)
            = (inr false, (analyze_recursively alias_env (new_resolver "foo" ∅)).2))
    as Hrun by (vm_compute; reflexivity).
  split; [exact Hkey|]. split; [exact Hrun|].
  exact (alias_target_removes_nothing alias_env "foo" ∅ false _
           (aliases_ok_empty alias_env) Hkey Hrun).
Defined.

Lemma uninstalled_names_allowed_witness :
  __init__ chain_env "A" ∅ = (inr (DependencyData_new "A"), ∅)
  ∧ _main chain_env false true false
      {| depenency_data := DependencyData_new "A"; alias_to_names := ∅ |}
    = (inr (Some ["uninstall"; "--yes"; "C"; "A"; "B"]),
       (_main chain_env false true false (new_resolver "A" ∅)).2)
  ∧ ∃ names : list string,
      ["uninstall"; "--yes"; "C"; "A"; "B"]
        = (["uninstall"; "--yes"] ++ [] ++ names)%list
      ∧ ∀ x, x ∈ names → installed chain_env x ∧ x ∉ WHITELIST.
Proof.
  assert (__init__ chain_env "A" ∅ = (inr (DependencyData_new "A"), ∅)) as Hinit
    by (vm_compute; reflexivity).
  assert (_main chain_env false true false
            {| depenency_data := DependencyData_new "A"; alias_to_names := ∅ |}
          = (inr (Some ["uninstall"; "--yes"; "C"; "A"; "B"]),
             (_main chain_env false true false (new_resolver "A" ∅)).2)) as Hrun
    by (vm_compute; reflexivity).
  split; [exact Hinit|]. split; [exact Hrun|].
  exact (uninstalled_names_allowed chain_env "A" ∅ _ ∅ false true false _ _
           (aliases_ok_empty chain_env) Hinit Hrun).
Defined.

Lemma filter_monotone_witness :
  (1 ≤ 2)%Z
  ∧ _PipRemoveFilter_filter 1 INFO = true
  ∧ _PipRemoveFilter_filter 2 INFO = true.
Proof.
  assert (1 ≤ 2)%Z as Hle by lia.
  assert (_PipRemoveFilter_filter 1 INFO = true) as Hpass by (vm_compute; reflexivity).
  split; [exact Hle|]. split; [exact Hpass|].
  exact (filter_monotone 1 2 INFO Hle Hpass).
Defined.

Lemma choice_first_answer_witness :
  answer_of "maybe" = None ∧ answer_of "   " = None ∧ answer_of " YES " = Some true
  ∧ choice "Continue to uninstall?"
      {| stdin := ["maybe"; "   "; " YES "; "n"]; stdout := [] |}
    = (Some true,
       {| stdin := ["n"];
          stdout :=
            ([] ++ (["maybe"; "   "]
                      ≫= written_for ("Continue to uninstall?" +:+ " (y/n/yes/no): "))
                ++ ["Continue to uninstall?" +:+ " (y/n/yes/no): "])%list |}).
Proof.
  assert (Forall (λ l, answer_of l = None) ["maybe"; "   "]) as Hskip.
  { repeat constructor; vm_compute; reflexivity. }
  assert (answer_of " YES " = Some true) as Hline by (vm_compute; reflexivity).
  split; [vm_compute; reflexivity|]. split; [vm_compute; reflexivity|].
  split; [exact Hline|].
  exact (choice_first_answer "Continue to uninstall?"
           {| stdin := ["maybe"; "   "; " YES "; "n"]; stdout := [] |}
           ["maybe"; "   "] " YES " ["n"] true eq_refl Hskip Hline).
Defined.

Lemma choice_no_answer_witness :
  Forall (λ l, answer_of l = None) ["maybe"; ""]
  ∧ choice "Continue to uninstall?" {| stdin := ["maybe"; ""]; stdout := [] |}
    = (None,
       {| stdin := [];
          stdout :=
            ([] ++ (["maybe"; ""]
                      ≫= written_for ("Continue to uninstall?" +:+ " (y/n/yes/no): "))
                ++ ["Continue to uninstall?" +:+ " (y/n/yes/no): "])%list |}).
Proof.
  assert (Forall (λ l, answer_of l = None) ["maybe"; ""]) as Hskip.
  { repeat constructor; vm_compute; reflexivity. }
  split; [exact Hskip|].
  exact (choice_no_answer "Continue to uninstall?"
           {| stdin := ["maybe"; ""]; stdout := [] |} Hskip).
Defined.

Lemma answer_of_insensitive_witness :
  strip "  " = "" ∧ strip " " = "" ∧ lower "No" = lower "no"
  ∧ answer_of ("  " +:+ "No" +:+ " ") = answer_of "no"
  ∧ answer_of "no" = Some false.
Proof.
  assert (strip "  " = "") as H1 by (vm_compute; reflexivity).
  assert (strip " " = "") as H2 by (vm_compute; reflexivity).
  assert (lower "No" = lower "no") as Hcase by (vm_compute; reflexivity).
  split; [exact H1|]. split; [exact H2|]. split; [exact Hcase|].
  split; [|vm_compute; reflexivity].
  exact (answer_of_insensitive "  " "No" " " "no" H1 H2 Hcase).
Defined.

Lemma print_results_dependents_witness :
  this_requires_by (depenency_data (before_drop cycle_env "A")) ≠ ∅
  ∧ ∃ names rest,
      _print_results true (depenency_data (before_drop cycle_env "A")) =
        ("The following packages used this as a dependency:"
           :: ((λ i, format_indent 4 +:+ i) <$> names) ++ rest)%list
      ∧ StronglySorted string_le names
      ∧ NoDup names
      ∧ ∀ i, i ∈ names ↔
          i ∈ this_requires_by (depenency_data (before_drop cycle_env "A")).
Proof.
  assert (this_requires_by (depenency_data (before_drop cycle_env "A")) ≠ ∅)
    as Hne by (apply (bool_decide_unpack _); vm_compute; exact I).
  split; [exact Hne|].
  exact (print_results_dependents _ Hne).
Defined.

Lemma print_results_removed_witness :
  safe_of (depenency_data (before_drop chain_env "A")) "A" ≠ ∅
  ∧ ∃ before lines,
      _print_results true (depenency_data (before_drop chain_env "A")) =
        (before
         ++ "The following dependencies of this module/package will be REMOVED:"
            :: lines)%list
      ∧ ∀ l, l ∈ lines ↔
          ∃ p dep, dep ∈ safe_of (depenency_data (before_drop chain_env "A")) p
            ∧ l = format_indent 4 +:+ dep +:+ " (a dependency of " +:+ p +:+ ")".
Proof.
  assert (safe_of (depenency_data (before_drop chain_env "A")) "A" ≠ ∅)
    as Hne by (apply (bool_decide_unpack _); vm_compute; exact I).
  split; [exact Hne|].
  exact (print_results_removed _ "A" Hne).
Defined.

(** What the report of [chain_env] looks like. *)
Example chain_report :
  _print_results true
    (depenency_data (analyze_recursively chain_env (new_resolver "A" ∅)).2)
  = ["The following dependencies of this module/package will be REMOVED:";
     "  - B (a dependency of A)";
     "  - C (a dependency of B)"].
Proof. by vm_compute. Qed.

Lemma main_io_without_question_witness :
  false || true = true
  ∧ (_main_io chain_env true false true (new_resolver "A" ∅)
       {| stdin := ["no"]; stdout := [] |}).1
    = (match (_main chain_env false true false (new_resolver "A" ∅)).1 with
       | inl e => inl (Raised e)
       | inr call => inr call
       end,
       (_main chain_env false true false (new_resolver "A" ∅)).2)
  ∧ stdin (_main_io chain_env true false true (new_resolver "A" ∅)
             {| stdin := ["no"]; stdout := [] |}).2
    = stdin {| stdin := ["no"]; stdout := [] |}.
Proof.
  split; [reflexivity|].
  exact (main_io_without_question chain_env true false true false
           (new_resolver "A" ∅) {| stdin := ["no"]; stdout := [] |} eq_refl).
Defined.

Lemma main_io_asks_witness :
  analyze_recursively chain_env (new_resolver "A" ∅)
    = (inr true, (analyze_recursively chain_env (new_resolver "A" ∅)).2)
  ∧ answer_of "what?" = None ∧ answer_of "N" = Some false
  ∧ _main_io chain_env true false false (new_resolver "A" ∅)
      {| stdin := ["what?"; "N"; "y"]; stdout := [] |}
    = (inr (if false
            then Some (_remove_packages false
                         (depenency_data
                            (analyze_recursively chain_env (new_resolver "A" ∅)).2))
            else None),
       (analyze_recursively chain_env (new_resolver "A" ∅)).2,
       {| stdin := ["y"];
          stdout :=
            ([] ++ _print_results true
                     (depenency_data
                        (analyze_recursively chain_env (new_resolver "A" ∅)).2)
                ++ (["what?"] ≫= written_for "Continue to uninstall? (y/n/yes/no): ")
                ++ ["Continue to uninstall? (y/n/yes/no): "])%list |}).
Proof.
  assert (analyze_recursively chain_env (new_resolver "A" ∅)
            = (inr true, (analyze_recursively chain_env (new_resolver "A" ∅)).2))
    as Hrun by (vm_compute; reflexivity).
  assert (Forall (λ l, answer_of l = None) ["what?"]) as Hskip.
  { repeat constructor; vm_compute; reflexivity. }
  assert (answer_of "N" = Some false) as Hline by (vm_compute; reflexivity).
  split; [exact Hrun|]. split; [vm_compute; reflexivity|]. split; [exact Hline|].
  exact (main_io_asks chain_env true (new_resolver "A" ∅) _
           {| stdin := ["what?"; "N"; "y"]; stdout := [] |}
           ["what?"] "N" ["y"] false Hrun eq_refl Hskip Hline).
Defined.

End ConcreteMore.
